(** * SRF2025 contributions extractor: page parser and session classifier

    A shallow embedding of [srf2025_pdf_extractor.py]: the session table
    with [get_session_name], the page parser [parse_contribution_page]
    with the regular expressions it searches for, and the page loop of
    [extract_contributions].

    Python strings are modelled as lists of characters whose code points
    are below 256; the character classes of [re] ([\w], [\d], [\s]),
    [str.strip] and [str.lower] are those of Python 3 on that range. *)

From Stdlib Require Import Ascii String NArith Arith Bool Lia Sorted.
From stdpp Require Import base option list gmap strings.

Local Open Scope string_scope.
Local Open Scope list_scope.
Local Open Scope nat_scope.

(** ** Strings *)

Abbreviation str := (list ascii).

Coercion list_ascii_of_string : string >-> list.

Arguments list_ascii_of_string : simpl never.

Definition code (c : ascii) : N := N_of_ascii c.

Definition in_range (lo hi : N) (c : ascii) : bool :=
  ((lo <=? code c) && (code c <=? hi))%N.

(** [str.isspace] on one character: the ASCII white space, the four
    separators 0x1c-0x1f, NEL and the no-break space. *)
Definition is_space (c : ascii) : bool :=
  in_range 9 13 c || in_range 28 32 c
  || (code c =? 133)%N || (code c =? 160)%N.

(** [\d]: the decimal digits. *)
Definition is_digit (c : ascii) : bool := in_range 48 57 c.

(** [[A-Z]]. *)
Definition is_upper_AZ (c : ascii) : bool := in_range 65 90 c.

(** [\w]: alphanumeric characters and the underscore. *)
Definition is_word (c : ascii) : bool :=
  is_digit c || is_upper_AZ c || in_range 97 122 c || (code c =? 95)%N
  || (code c =? 170)%N || in_range 178 179 c || (code c =? 181)%N
  || in_range 185 186 c || in_range 188 190 c
  || in_range 192 214 c || in_range 216 246 c || in_range 248 255 c.

Definition newline : ascii := "010"%char.

Definition is_newline (c : ascii) : bool := Ascii.eqb c newline.

(** [.] without DOTALL, and [[^\n]]. *)
Definition not_newline (c : ascii) : bool := negb (is_newline c).

(** [.] with DOTALL. *)
Definition any_char (c : ascii) : bool := true.

Definition is_AP (c : ascii) : bool :=
  Ascii.eqb c "A"%char || Ascii.eqb c "P"%char.

(** [str.lower] on one character. *)
Definition lower_char (c : ascii) : ascii :=
  if in_range 65 90 c || in_range 192 214 c || in_range 216 222 c
  then ascii_of_N (code c + 32) else c.

Definition lower (s : str) : str := map lower_char s.

(** [s.startswith(p)], returning what follows the prefix. *)
Fixpoint strip_prefix (p s : str) : option str :=
  match p, s with
  | [], _ => Some s
  | a :: p', b :: s' => if Ascii.eqb a b then strip_prefix p' s' else None
  | _ :: _, [] => None
  end.

Definition startswith (p s : str) : bool :=
  match strip_prefix p s with Some _ => true | None => false end.

(** [sub in s]. *)
Fixpoint contains (sub s : str) : bool :=
  startswith sub s ||
  match s with
  | [] => false
  | _ :: s' => contains sub s'
  end.

Fixpoint lstrip (s : str) : str :=
  match s with
  | c :: s' => if is_space c then lstrip s' else s
  | [] => []
  end.

Definition rstrip (s : str) : str := rev (lstrip (rev s)).

(** [s.strip()]. *)
Definition strip (s : str) : str := lstrip (rstrip s).

(** [s.split('\n')]. *)
Fixpoint split_newline (s : str) : list str :=
  match s with
  | [] => [[]]
  | c :: s' =>
      if is_newline c then [] :: split_newline s'
      else match split_newline s' with
           | l :: ls => (c :: l) :: ls
           | [] => [[c]]
           end
  end.

Definition nonempty (s : str) : bool :=
  match s with [] => false | _ :: _ => true end.

(** [sep.join(parts)]. *)
Fixpoint join (sep : str) (parts : list str) : str :=
  match parts with
  | [] => []
  | [p] => p
  | p :: ps => p ++ sep ++ join sep ps
  end.

(** ** Regular expressions

    The patterns of the parser only repeat single characters, so the
    syntax has the two repetitions of a character class; [x+] is [x]
    followed by [x*]. There is one capture group per pattern. *)

Inductive regex : Type :=
| Lit (s : str)
| Cls (p : ascii -> bool)
| Star (p : ascii -> bool)
| LazyStar (p : ascii -> bool)
| Cat (r1 r2 : regex)
| Alt (r1 r2 : regex)
| Grp (r : regex)
| Dollar
| Ahead (r : regex).

Definition Plus (p : ascii -> bool) : regex := Cat (Cls p) (Star p).

Fixpoint Cats (rs : list regex) : regex :=
  match rs with
  | [] => Lit []
  | [r] => r
  | r :: rs' => Cat r (Cats rs')
  end.

(** [$] without MULTILINE: the end of the text, or just before a newline
    that ends the text. *)
Definition at_end (s : str) : bool :=
  match s with
  | [] => true
  | [c] => is_newline c
  | _ => false
  end.

(** Greedy repetition: take the character when possible and give it
    back when the rest of the pattern fails. *)
Fixpoint star_greedy {R : Type} (p : ascii -> bool) (s : str)
    (k : str -> option R) : option R :=
  match s with
  | c :: s' =>
      if p c then
        match star_greedy p s' k with
        | Some x => Some x
        | None => k s
        end
      else k s
  | [] => k []
  end.

(** Lazy repetition: try the rest of the pattern first. *)
Fixpoint star_lazy {R : Type} (p : ascii -> bool) (s : str)
    (k : str -> option R) : option R :=
  match k s with
  | Some x => Some x
  | None =>
      match s with
      | c :: s' => if p c then star_lazy p s' k else None
      | [] => None
      end
  end.

(** The backtracking matcher, in continuation-passing style: [s] is the
    text from the current position on, [g] the capture so far, [k] the
    rest of the pattern. *)
Fixpoint exec (r : regex) :
    forall R : Type, str -> option str -> (str -> option str -> option R) -> option R :=
  fun R s g k =>
  match r with
  | Lit l =>
      match strip_prefix l s with
      | Some s' => k s' g
      | None => None
      end
  | Cls p =>
      match s with
      | c :: s' => if p c then k s' g else None
      | [] => None
      end
  | Star p => star_greedy p s (fun s' => k s' g)
  | LazyStar p => star_lazy p s (fun s' => k s' g)
  | Cat r1 r2 => exec r1 R s g (fun s1 g1 => exec r2 R s1 g1 k)
  | Alt r1 r2 =>
      match exec r1 R s g k with
      | Some x => Some x
      | None => exec r2 R s g k
      end
  | Grp r1 =>
      exec r1 R s g
        (fun s' _ => k s' (Some (firstn (length s - length s') s)))
  | Dollar => if at_end s then k s g else None
  | Ahead r1 =>
      match exec r1 unit s g (fun _ _ => Some tt) with
      | Some _ => k s g
      | None => None
      end
  end.

(** A match at the current position: [Some g] with the capture [g]. *)
Definition match_here (r : regex) (s : str) : option (option str) :=
  exec r (option str) s None (fun _ g => Some g).

(** [re.search]: the leftmost position with a match. *)
Fixpoint re_search (r : regex) (s : str) : option (option str) :=
  match match_here r s with
  | Some m => Some m
  | None =>
      match s with
      | [] => None
      | _ :: s' => re_search r s'
      end
  end.

(** [m.group(1)] of a search, when it matched. *)
Definition group1 (r : regex) (s : str) : option str :=
  match re_search r s with
  | Some (Some g) => Some g
  | _ => None
  end.

Definition matches (r : regex) (s : str) : bool :=
  match re_search r s with Some _ => true | None => false end.

(** ** The patterns of [parse_contribution_page] *)

(** [Contribution ID:\s*(\d+)] *)
Definition id_re : regex :=
  Cats [Lit "Contribution ID:"; Star is_space; Grp (Plus is_digit)].

(** [Contribution code:\s*([A-Z]+\d+)] *)
Definition code_re : regex :=
  Cats [Lit "Contribution code:"; Star is_space;
        Grp (Cat (Plus is_upper_AZ) (Plus is_digit))].

(** [Type:\s*([^\n]+)] *)
Definition type_re : regex :=
  Cats [Lit "Type:"; Star is_space; Grp (Plus not_newline)].

(** [\w+day, \w+ \d+, \d{4}], the part shared by the two date patterns. *)
Definition date_prefix : list regex :=
  [Plus is_word; Lit "day, "; Plus is_word; Lit " "; Plus is_digit;
   Lit ", "; Cls is_digit; Cls is_digit; Cls is_digit; Cls is_digit].

(** [(\w+day, \w+ \d+, \d{4} \d+:\d+\s*[AP]M.*?)(?:\(|$)] *)
Definition date_core : regex :=
  Cats (date_prefix ++
        [Lit " "; Plus is_digit; Lit ":"; Plus is_digit; Star is_space;
         Cls is_AP; Lit "M"]).

Definition datetime_re : regex :=
  Cat (Grp (Cat date_core (LazyStar not_newline)))
      (Alt (Lit "(") Dollar).

(** [\w+day, \w+ \d+, \d{4}] *)
Definition date_line_re : regex := Cats date_prefix.

(** [Footnotes(.*?)(?=Contribution|$)] with DOTALL *)
Definition footnotes_re : regex :=
  Cats [Lit "Footnotes"; Grp (LazyStar any_char);
        Ahead (Alt (Lit "Contribution") Dollar)].

(** ** Session classifier *)

Definition item (k v : string) : str * str :=
  (list_ascii_of_string k, list_ascii_of_string v).

Definition session_items : list (str * str) :=
  [
   item "MOA" "Monday Opening and Awards";
   item "MOB" "Monday Oral Session B";
   item "MOC" "Monday Oral Session C";
   item "MOD" "Monday Oral Session D";
   item "MOE" "Monday Oral Session E";
   item "MOF" "Monday Oral Session F";
   item "MOG" "Monday Oral Session G";
   item "MOH" "Monday Oral Session H";
   item "MOI" "Monday Oral Session I";
   item "MOJ" "Monday Oral Session J";
   item "MOK" "Monday Oral Session K";
   item "MOL" "Monday Oral Session L";
   item "MOM" "Monday Oral Session M";
   item "MON" "Monday Oral Session N";
   item "MOO" "Monday Oral Session O";
   item "MOP" "Monday Poster Session";
   item "TUA" "Tuesday Oral Session A";
   item "TUB" "Tuesday Oral Session B";
   item "TUC" "Tuesday Oral Session C";
   item "TUD" "Tuesday Oral Session D";
   item "TUE" "Tuesday Oral Session E";
   item "TUF" "Tuesday Oral Session F";
   item "TUG" "Tuesday Oral Session G";
   item "TUH" "Tuesday Oral Session H";
   item "TUI" "Tuesday Oral Session I";
   item "TUJ" "Tuesday Oral Session J";
   item "TUK" "Tuesday Oral Session K";
   item "TUL" "Tuesday Oral Session L";
   item "TUM" "Tuesday Oral Session M";
   item "TUN" "Tuesday Oral Session N";
   item "TUO" "Tuesday Oral Session O";
   item "TUP" "Tuesday Poster Session";
   item "WEA" "Wednesday Oral Session A";
   item "WEB" "Wednesday Oral Session B";
   item "WEC" "Wednesday Oral Session C";
   item "WED" "Wednesday Oral Session D";
   item "WEE" "Wednesday Oral Session E";
   item "WEF" "Wednesday Oral Session F";
   item "WEG" "Wednesday Oral Session G";
   item "WEH" "Wednesday Oral Session H";
   item "WEI" "Wednesday Oral Session I";
   item "WEJ" "Wednesday Oral Session J";
   item "WEK" "Wednesday Oral Session K";
   item "WEL" "Wednesday Oral Session L";
   item "WEM" "Wednesday Oral Session M";
   item "WEN" "Wednesday Oral Session N";
   item "WEO" "Wednesday Oral Session O";
   item "WEP" "Wednesday Poster Session";
   item "THA" "Thursday Oral Session A";
   item "THB" "Thursday Oral Session B";
   item "THC" "Thursday Oral Session C";
   item "THD" "Thursday Oral Session D";
   item "THE" "Thursday Oral Session E";
   item "THF" "Thursday Oral Session F";
   item "THG" "Thursday Oral Session G";
   item "THH" "Thursday Oral Session H";
   item "THI" "Thursday Oral Session I";
   item "THJ" "Thursday Oral Session J";
   item "THK" "Thursday Oral Session K";
   item "THL" "Thursday Oral Session L";
   item "THM" "Thursday Oral Session M";
   item "THN" "Thursday Oral Session N";
   item "THO" "Thursday Oral Session O";
   item "THP" "Thursday Poster Session";
   item "FRA" "Friday Oral Session A";
   item "FRB" "Friday Oral Session B";
   item "FRC" "Friday Oral Session C";
   item "FRD" "Friday Oral Session D";
   item "FRE" "Friday Oral Session E";
   item "FRF" "Friday Oral Session F";
   item "FRG" "Friday Oral Session G";
   item "FRH" "Friday Oral Session H";
   item "FRI" "Friday Oral Session I";
   item "FRJ" "Friday Oral Session J";
   item "FRK" "Friday Oral Session K";
   item "FRL" "Friday Oral Session L";
   item "FRM" "Friday Oral Session M";
   item "FRN" "Friday Oral Session N";
   item "FRO" "Friday Oral Session O";
   item "FRP" "Friday Poster Session"
  ].

Definition session_map : gmap str str := list_to_map session_items.

(** [session_map.get(session_code, f"Session {session_code}")] *)
Definition get_session_name (session_code : str) : str :=
  default ("Session " ++ session_code) (session_map !! session_code).

(** ** Contribution records *)

Record contribution : Type := {
  contribution_id : str;
  contribution_code : str;
  type : str;
  title : str;
  date_time : str;
  abstract : str;
  footnotes : str;
  session : str;
  session_code : str;
  page_number : nat
}.

(** [lines = [line.strip() for line in text.split('\n') if line.strip()]] *)
Definition page_lines (text : str) : list str :=
  map strip (List.filter (fun line => nonempty (strip line)) (split_newline text)).

Definition header_markers : list str :=
  ["contribution id:" : str; "contribution code:" : str; "type:" : str;
   "srf2025" : str; "report of contributions" : str].

(** [any(skip in line.lower() for skip in [...])] *)
Definition is_header (line : str) : bool :=
  existsb (fun skip => contains skip (lower line)) header_markers.

(** [re.search(r'\w+day, \w+ \d+, \d{4}', line)] *)
Definition is_date_line (line : str) : bool := matches date_line_re line.

(** The local variables of the line loop. *)
Record scan : Type := {
  found_title : str;
  title_found : bool;
  abstract_start : bool;
  abstract_lines : list str
}.

Definition scan_init : scan :=
  {| found_title := []; title_found := false;
     abstract_start := false; abstract_lines := [] |}.

Definition set_title (line : str) (st : scan) : scan :=
  {| found_title := line; title_found := true;
     abstract_start := abstract_start st;
     abstract_lines := abstract_lines st |}.

Definition append_abstract (line : str) (start : bool) (st : scan) : scan :=
  {| found_title := found_title st; title_found := title_found st;
     abstract_start := start;
     abstract_lines := abstract_lines st ++ [line] |}.

(** [line.lower().startswith(('footnotes', 'funding'))] *)
Definition is_stop_line (line : str) : bool :=
  startswith "footnotes" (lower line) || startswith "funding" (lower line).

(** The loop [for i, line in enumerate(lines)]: [continue] goes to the
    next line, [break] returns the state as it is. *)
Fixpoint scan_lines (lines : list str) (st : scan) : scan :=
  match lines with
  | [] => st
  | line :: rest =>
      if is_header line then scan_lines rest st
      else if is_date_line line then scan_lines rest st
      else if negb (title_found st) && (10 <? length line)
              && negb (startswith "http" line)
      then scan_lines rest (set_title line st)
      else if title_found st && negb (abstract_start st) then
        if is_stop_line line then st
        else if 20 <? length line
        then scan_lines rest (append_abstract line true st)
        else if abstract_start st && (5 <? length line)
        then scan_lines rest (append_abstract line (abstract_start st) st)
        else scan_lines rest st
      else scan_lines rest st
  end.

Definition nonempty_list {A : Type} (l : list A) : bool :=
  match l with [] => false | _ :: _ => true end.

(** [if m: d[key] = f(m.group(1))], the key keeping its initial [''] when
    the search finds nothing. *)
Definition field (f : str -> str) (r : regex) (text : str) : str :=
  match group1 r text with
  | Some g => f g
  | None => []
  end.

(** The dictionary at the end of the [try] block. *)
Definition fields (text : str) (page_num : nat) : contribution :=
  let lines := page_lines text in
  let contribution_id := field id id_re text in
  let '(contribution_code, session_code, session) :=
    match group1 code_re text with
    | Some c =>
        if 3 <=? length c
        then (c, firstn 3 c, get_session_name (firstn 3 c))
        else (c, [], [])
    | None => ([], [], [])
    end in
  let type := field strip type_re text in
  let date_time := field strip datetime_re text in
  let st := scan_lines lines scan_init in
  let abstract :=
    if nonempty_list (abstract_lines st)
    then join " " (abstract_lines st) else [] in
  let footnotes := field strip footnotes_re text in
  {| contribution_id := contribution_id;
     contribution_code := contribution_code;
     type := type;
     title := found_title st;
     date_time := date_time;
     abstract := abstract;
     footnotes := footnotes;
     session := session;
     session_code := session_code;
     page_number := page_num |}.

(** ** Exceptions, the log and the extractor object *)

Inductive outcome (A : Type) : Type :=
| Returns (a : A)
| Raises (e : str).

Arguments Returns {A} a.
Arguments Raises {A} e.

(** The messages of [self.logger]. *)
Inductive event : Type :=
| InfoOpening
| InfoPageCount (total_pages : nat)
| InfoExtracted (contribution_code title50 : str)
| InfoDone (count : nat)
| ErrorProcessingPage (page : nat) (e : str)
| ErrorParsingPage (page : nat) (e : str)
| ErrorOpening (e : str).

Record extractor : Type := {
  contributions : list contribution;
  log : list event
}.

Definition new_extractor : extractor := {| contributions := []; log := [] |}.

Definition logged (ev : event) (self : extractor) : extractor :=
  {| contributions := contributions self; log := log self ++ [ev] |}.

Definition appended (c : contribution) (self : extractor) : extractor :=
  {| contributions := contributions self ++ [c]; log := log self |}.

(** A page of the reader: what [page.extract_text()] does. *)
Abbreviation page := (outcome str).

Section Handlers.

(** The statements inside the [try] of [parse_contribution_page]. *)
Variable try_block : str -> nat -> outcome contribution.

Definition parse_page (text : str) (page_num : nat) (self : extractor)
    : extractor * option contribution :=
  match try_block text page_num with
  | Raises e => (logged (ErrorParsingPage page_num e) self, None)
  | Returns c =>
      (self,
       if nonempty (contribution_code c) && nonempty (title c)
       then Some c else None)
  end.

(** The body of the page loop, with its [try] and [except]. *)
Definition process_page (page_num : nat) (pg : page) (self : extractor)
    : extractor :=
  match pg with
  | Raises e => logged (ErrorProcessingPage (page_num + 1) e) self
  | Returns text =>
      if nonempty (strip text) then
        match parse_page text (page_num + 1) self with
        | (self', Some c) =>
            logged (InfoExtracted (contribution_code c) (firstn 50 (title c)))
                   (appended c self')
        | (self', None) => self'
        end
      else self
  end.

(** [for page_num in range(first, total_pages)] over the pages from
    [first] on. *)
Fixpoint page_loop (page_num : nat) (pages : list page) (self : extractor)
    : extractor :=
  match pages with
  | [] => self
  | pg :: rest => page_loop (S page_num) rest (process_page page_num pg self)
  end.

Definition extract_with (pdf : outcome (list page)) (self : extractor)
    : extractor * list contribution :=
  let self := logged InfoOpening self in
  match pdf with
  | Raises e => (logged (ErrorOpening e) self, [])
  | Returns pages =>
      let self := logged (InfoPageCount (length pages)) self in
      let self := page_loop 1 (drop 1 pages) self in
      let self := logged (InfoDone (length (contributions self))) self in
      (self, contributions self)
  end.

End Handlers.

(** No statement of the [try] block raises on a string. *)
Definition parse_body (text : str) (page_num : nat) : outcome contribution :=
  Returns (fields text page_num).

Definition parse_contribution_page
    : str -> nat -> extractor -> extractor * option contribution :=
  parse_page parse_body.

Definition extract_contributions
    : outcome (list page) -> extractor -> extractor * list contribution :=
  extract_with parse_body.

(** The parser as a function of the page text and the page number. *)
Definition parse (text : str) (page_num : nat) : option contribution :=
  snd (parse_contribution_page text page_num new_extractor).

(** ** Declarative reading of the patterns

    [consumes r s s']: from the text [s] on, [r] can match and leave
    [s']. The matcher only returns matches of this relation. *)

Inductive consumes : regex -> str -> str -> Prop :=
| consumes_Lit l s : consumes (Lit l) (l ++ s) s
| consumes_Cls (p : ascii -> bool) c s : p c = true -> consumes (Cls p) (c :: s) s
| consumes_Star_nil p s : consumes (Star p) s s
| consumes_Star_cons (p : ascii -> bool) c s s' :
    p c = true -> consumes (Star p) s s' -> consumes (Star p) (c :: s) s'
| consumes_LazyStar_nil p s : consumes (LazyStar p) s s
| consumes_LazyStar_cons (p : ascii -> bool) c s s' :
    p c = true -> consumes (LazyStar p) s s' -> consumes (LazyStar p) (c :: s) s'
| consumes_Cat r1 r2 s s1 s2 :
    consumes r1 s s1 -> consumes r2 s1 s2 -> consumes (Cat r1 r2) s s2
| consumes_Alt_l r1 r2 s s' : consumes r1 s s' -> consumes (Alt r1 r2) s s'
| consumes_Alt_r r1 r2 s s' : consumes r2 s s' -> consumes (Alt r1 r2) s s'
| consumes_Grp r s s' : consumes r s s' -> consumes (Grp r) s s'
| consumes_Dollar s : at_end s = true -> consumes Dollar s s
| consumes_Ahead r s s' : consumes r s s' -> consumes (Ahead r) s s.

(** [avoids c r]: no match of [r] goes over the character [c]. *)
Fixpoint avoids (c : ascii) (r : regex) : bool :=
  match r with
  | Lit l => negb (existsb (Ascii.eqb c) l)
  | Cls p | Star p | LazyStar p => negb (p c)
  | Cat r1 r2 | Alt r1 r2 => avoids c r1 && avoids c r2
  | Grp r1 => avoids c r1
  | Dollar | Ahead _ => true
  end.

(** The text after the longest prefix of characters in [p]. *)
Fixpoint dropwhile (p : ascii -> bool) (s : str) : str :=
  match s with
  | c :: s' => if p c then dropwhile p s' else s
  | [] => []
  end.

(** The text up to the first place where [stop] holds. *)
Fixpoint lazy_prefix (stop : str -> bool) (s : str) : str :=
  if stop s then []
  else match s with
       | [] => []
       | c :: s' => c :: lazy_prefix stop s'
       end.

(** Where [(?=Contribution|$)] holds. *)
Definition footnotes_stop (s : str) : bool :=
  startswith "Contribution" s || at_end s.

(** ** The claims in the words of the specification *)

(** A line that can become the title: not a header line, not a date
    line, longer than 10 characters, not starting with "http". *)
Definition title_candidate (line : str) : bool :=
  negb (is_header line) && negb (is_date_line line)
  && (10 <? length line) && negb (startswith "http" line).

(** The lines the loop looks at: those not skipped as header or date. *)
Definition scanned (lines : list str) : list str :=
  List.filter (fun line => negb (is_header line) && negb (is_date_line line))
    lines.

(** What follows the first element satisfying [f]. *)
Fixpoint after_found {A : Type} (f : A -> bool) (l : list A) : list A :=
  match l with
  | [] => []
  | x :: l' => if f x then l' else after_found f l'
  end.

(** The text after the first occurrence of [marker]. *)
Fixpoint after_first (marker s : str) : option str :=
  match strip_prefix marker s with
  | Some rest => Some rest
  | None =>
      match s with
      | [] => None
      | _ :: s' => after_first marker s'
      end
  end.

(** The text before the first occurrence of [marker], all of it when
    there is none. *)
Fixpoint before_first (marker s : str) : str :=
  if startswith marker s then []
  else match s with
       | [] => []
       | c :: s' => c :: before_first marker s'
       end.

(** Footnotes as the specification words them: what follows the first
    "Footnotes", up to the next "Contribution" or the end, trimmed. *)
Definition footnotes_spec (text : str) : str :=
  match after_first "Footnotes" text with
  | Some rest => strip (before_first "Contribution" rest)
  | None => []
  end.

(** What is left of the text after the date and time proper,
    [\w+day, \w+ \d+, \d{4} \d+:\d+\s*[AP]M], matched at its start. *)
Definition date_core_here (s : str) : option str :=
  exec date_core str s None (fun s' _ => Some s').

(** The date and time as the specification words them: from the first
    date on, cut at the next "(" or else running to the end of the
    text, trimmed. *)
Fixpoint date_time_spec (text : str) : str :=
  match date_core_here text with
  | Some rest =>
      strip (firstn (length text - length rest) text ++ before_first "(" rest)
  | None =>
      match text with
      | [] => []
      | _ :: text' => date_time_spec text'
      end
  end.

(** The abstract as the specification words it: after the title, the
    first line longer than 20 characters starts the abstract and every
    later line longer than 5 characters is added, up to a line that
    starts with "footnotes" or "funding". *)
Fixpoint collect_abstract (started : bool) (lines : list str) : list str :=
  match lines with
  | [] => []
  | line :: rest =>
      if is_stop_line line then []
      else if started then
        if 5 <? length line then line :: collect_abstract true rest
        else collect_abstract true rest
      else
        if 20 <? length line then line :: collect_abstract true rest
        else collect_abstract false rest
  end.

Definition abstract_spec (text : str) : str :=
  join " " (collect_abstract false
              (after_found title_candidate (scanned (page_lines text)))).

(** The records of one page and of the pages from [page_num] on, each
    page taken alone. *)
Section PageRecords.

Variable try_block : str -> nat -> outcome contribution.

Definition page_records (page_num : nat) (pg : page) : list contribution :=
  match pg with
  | Raises _ => []
  | Returns text =>
      if nonempty (strip text) then
        match snd (parse_page try_block text (page_num + 1) new_extractor) with
        | Some c => [c]
        | None => []
        end
      else []
  end.

Fixpoint records_from (page_num : nat) (pages : list page) : list contribution :=
  match pages with
  | [] => []
  | pg :: rest => page_records page_num pg ++ records_from (S page_num) rest
  end.

(** The error a page ends in, if it does. *)
Definition failure (page_num : nat) (pg : page) : option event :=
  match pg with
  | Raises e => Some (ErrorProcessingPage (page_num + 1) e)
  | Returns text =>
      if nonempty (strip text) then
        match try_block text (page_num + 1) with
        | Raises e => Some (ErrorParsingPage (page_num + 1) e)
        | Returns _ => None
        end
      else None
  end.

End PageRecords.

(** ** Example pages *)

Definition lines_text (lines : list str) : str := join [newline] lines.

Definition example_page : str :=
  lines_text
    ["Contribution ID: 42" : str;
     "Contribution code: TUB003" : str;
     "Type: Oral Presentation" : str;
     "Tuesday, June 10, 2025 09:30 AM" : str;
     "Superconducting Cavity Performance Improvements" : str;
     "This work presents a detailed study of cavity quality factor degradation under high field operation conditions." : str;
     "Footnotes" : str;
     "Supported by Grant XYZ." : str].

(** A date line with no "(" on it, followed by a title: the layout of
    the example page. *)
Definition date_page : str :=
  lines_text
    ["Contribution code: MOA007" : str;
     "Monday, June 9, 2025 9:00 AM" : str;
     "Opening remarks of the chair" : str].

(** The same with the duration in parentheses after the time. *)
Definition date_page_paren : str :=
  lines_text
    ["Contribution code: MOA007" : str;
     "Monday, June 9, 2025 9:00 AM (20 minutes)" : str;
     "Opening remarks of the chair" : str].

(** A date line with no "(" before one with the duration. *)
Definition two_dates_page : str :=
  lines_text
    ["Contribution code: MOA007" : str;
     "Monday, June 9, 2025 9:00 AM" : str;
     "Tuesday, June 10, 2025 10:00 AM (20 minutes)" : str;
     "Opening remarks of the chair" : str].

(** What the specification makes of [date_page]: the date line and all
    that follows it. *)
Definition date_page_to_end : str :=
  lines_text
    ["Monday, June 9, 2025 9:00 AM" : str;
     "Opening remarks of the chair" : str].

(** Two contribution codes on one page. *)
Definition two_codes_page : str :=
  lines_text
    ["Contribution code: TUB001" : str;
     "Contribution code: MOA007" : str;
     "Opening remarks of the chair" : str].

(** A code and nothing long enough for a title. *)
Definition no_title_page : str :=
  lines_text ["Contribution code: AB123" : str; "Intro" : str].

(** A short line and a link before the title. *)
Definition intro_page : str :=
  lines_text
    ["Contribution code: AB123" : str;
     "Intro" : str;
     "https://indico.example.org/event/1" : str;
     "Opening remarks of the chair" : str].

(** An abstract of two lines. *)
Definition two_line_abstract_page : str :=
  lines_text
    ["Contribution code: AB123" : str;
     "Opening remarks of the chair" : str;
     "The first line of the abstract." : str;
     "Its second line." : str].

(** A code of two characters. *)
Definition short_code_page : str :=
  lines_text
    ["Contribution code: A1" : str;
     "Opening remarks of the chair" : str].

(** A run with a page that cannot be read between two good pages. *)
Definition damaged_page : page := Raises "damaged page".

Definition damaged_run : list page :=
  [Returns example_page; damaged_page; Returns date_page_paren].

Definition cavity_sentence : str :=
  "This work presents a detailed study of cavity quality factor degradation under high field operation conditions.".

(** ** Saving the data

    [save_data] groups the contributions by session code in a dictionary
    that keeps the order in which its keys were inserted. *)

Record info : Type := {
  info_id : str;
  info_name : str;
  info_prefix : str
}.

Record session_entry : Type := {
  session_info : info;
  papers : list contribution
}.

(** [session_code in sessions] *)
Definition has_key (k : str) (sessions : list (str * session_entry)) : bool :=
  existsb (fun kd => bool_decide (fst kd = k)) sessions.

(** The entry a new session code gets, with no paper yet. *)
Definition new_entry (contrib : contribution) : session_entry :=
  {| session_info :=
       {| info_id := session_code contrib;
          info_name := session contrib;
          info_prefix := session_code contrib |};
     papers := [] |}.

(** [sessions[k]['papers'].append(contrib)] *)
Fixpoint append_paper (k : str) (contrib : contribution)
    (sessions : list (str * session_entry)) : list (str * session_entry) :=
  match sessions with
  | [] => []
  | (k', d) :: rest =>
      if bool_decide (k' = k)
      then (k', {| session_info := session_info d;
                   papers := papers d ++ [contrib] |}) :: rest
      else (k', d) :: append_paper k contrib rest
  end.

(** The body of the loop [for contrib in self.contributions]. *)
Definition add_paper (sessions : list (str * session_entry))
    (contrib : contribution) : list (str * session_entry) :=
  let k := session_code contrib in
  let sessions :=
    if has_key k sessions then sessions
    else sessions ++ [(k, new_entry contrib)] in
  append_paper k contrib sessions.

Definition group_sessions (contributions : list contribution)
    : list (str * session_entry) :=
  fold_left add_paper contributions [].

(** [sessions[k]], when the key is there. *)
Fixpoint get_session (k : str) (sessions : list (str * session_entry))
    : option session_entry :=
  match sessions with
  | [] => None
  | (k', d) :: rest => if bool_decide (k' = k) then Some d else get_session k rest
  end.

(** What [save_data] writes: the JSON index, the rows of the CSV file
    and the summary report. *)
Record scrape_info : Type := {
  extraction_time : str;
  total_contributions : nat;
  sessions_processed : nat;
  source : str
}.

Record index : Type := {
  index_scrape_info : scrape_info;
  index_sessions : list session_entry
}.

Record report_line : Type := {
  line_prefix : str;
  line_name : str;
  line_count : nat
}.

Record report : Type := {
  report_time : str;
  report_total : nat;
  report_sessions : nat;
  breakdown : list report_line
}.

Record saved : Type := {
  index_json : index;
  csv_rows : list contribution;
  summary : report
}.

(** [save_data], with the two readings of the clock as arguments; it
    writes nothing when there are no contributions. *)
Definition save_data (json_time report_time : str)
    (contributions : list contribution) : option saved :=
  if nonempty_list contributions then
    let all_sessions_data := map snd (group_sessions contributions) in
    Some
      {| index_json :=
           {| index_scrape_info :=
                {| extraction_time := json_time;
                   total_contributions := length contributions;
                   sessions_processed := length all_sessions_data;
                   source := "contributions.pdf" |};
              index_sessions := all_sessions_data |};
         csv_rows := contributions;
         summary :=
           {| report_time := report_time;
              report_total := length contributions;
              report_sessions := length all_sessions_data;
              breakdown :=
                map (fun session_data =>
                       {| line_prefix := info_prefix (session_info session_data);
                          line_name := info_name (session_info session_data);
                          line_count := length (papers session_data) |})
                    all_sessions_data |} |}
  else None.

(** ** The whole run *)

(** The messages of the logger during [run]: those of the extraction
    and those of [run], [save_data] and [create_html_explorer]. *)
Inductive message : Type :=
| Extraction (ev : event)
| InfoStarting
| WarningNothingToSave
| InfoDataSaved
| InfoHtmlCreated
| InfoCompleted (count : nat)
| ErrorNoContributions.

Record outputs : Type := {
  data_files : option saved;
  html_explorer : bool
}.

Definition no_outputs : outputs :=
  {| data_files := None; html_explorer := false |}.

(** [run]: the extractor object after it, the files written and the
    messages logged since its start. *)
Definition run (json_time report_time : str) (pdf : outcome (list page))
    (self : extractor) : extractor * outputs * list message :=
  let '(self', returned) :=
    extract_contributions pdf
      {| contributions := contributions self; log := [] |} in
  let extraction := InfoStarting :: map Extraction (log self') in
  let self'' :=
    {| contributions := contributions self';
       log := log self ++ log self' |} in
  if nonempty_list returned then
    match save_data json_time report_time (contributions self') with
    | Some files =>
        (self'',
         {| data_files := Some files; html_explorer := true |},
         extraction ++ [InfoDataSaved; InfoHtmlCreated;
                        InfoCompleted (length returned)])
    | None =>
        (self'',
         {| data_files := None; html_explorer := true |},
         extraction ++ [WarningNothingToSave; InfoHtmlCreated;
                        InfoCompleted (length returned)])
    end
  else (self'', no_outputs, extraction ++ [ErrorNoContributions]).

(** ** Further readings of the code *)

(** The abstract of the line loop, line by line after the title: a line
    starting with "footnotes" or "funding" ends it empty, the first
    line longer than 20 characters is it. *)
Fixpoint first_body_line (lines : list str) : str :=
  match lines with
  | [] => []
  | line :: rest =>
      if is_stop_line line then []
      else if 20 <? length line then line
      else first_body_line rest
  end.

(** The session codes in the order of their first occurrence. *)
Definition first_occurrences (codes : list str) : list str :=
  rev (remove_dups (rev codes)).

(** The session of a record, from its session code. *)
Definition session_of (session_code : str) : str :=
  if nonempty session_code then get_session_name session_code else [].

Definition total_papers (sessions : list (str * session_entry)) : nat :=
  list_sum (map (fun kd => length (papers (snd kd))) sessions).

(** A code with two letters only. *)
Definition two_letter_page : str :=
  lines_text
    ["Contribution code: AB123" : str;
     "Opening remarks of the chair" : str].

(** A page of white space only. *)
Definition blank_page : str :=
  [" "%char; newline; "009"%char; " "%char; newline].

(** A run of four pages of two sessions. *)
Definition session_run : list page :=
  [Returns example_page; Returns example_page; Returns date_page_paren;
   Returns example_page].

(** ** Trimmed strings *)

Definition starts_clean (s : str) : Prop :=
  forall c s', s = c :: s' -> is_space c = false.

Definition ends_clean (s : str) : Prop :=
  forall s' c, s = s' ++ [c] -> is_space c = false.

(** * Properties *)

Arguments title_candidate : simpl never.

(** Evaluates a character class at the characters of a literal. *)
Ltac class_at_literals p :=
  repeat match goal with
  | |- context [p (Ascii ?a ?b ?c ?d ?e ?f ?g ?h)] =>
      let v := eval vm_compute in (p (Ascii a b c d e f g h)) in
      change (p (Ascii a b c d e f g h)) with v
  end.

(** ** The line loop *)

Lemma scan_lines_done lines st :
  title_found st = true -> abstract_start st = true ->
  scan_lines lines st = st.
Proof.
  intros Ht Ha. induction lines as [|line rest IH]; simpl; [reflexivity|].
  rewrite Ht, Ha. simpl.
  destruct (is_header line); [exact IH|].
  destruct (is_date_line line); exact IH.
Qed.

Lemma scan_lines_title_kept lines st :
  title_found st = true ->
  found_title (scan_lines lines st) = found_title st.
Proof.
  revert st. induction lines as [|line rest IH]; intros st Ht; simpl; [reflexivity|].
  destruct (is_header line); [auto|].
  destruct (is_date_line line); [auto|].
  rewrite Ht. simpl.
  destruct (abstract_start st) eqn:Ha; simpl; [auto|].
  destruct (is_stop_line line); [reflexivity|].
  destruct (20 <? length line); [|auto].
  rewrite IH by exact Ht. reflexivity.
Qed.

Lemma scan_lines_title lines st :
  title_found st = false ->
  found_title (scan_lines lines st) =
  match find title_candidate lines with
  | Some line => line
  | None => found_title st
  end.
Proof.
  revert st. induction lines as [|line rest IH]; intros st Ht; simpl; [reflexivity|].
  unfold title_candidate at 1.
  destruct (is_header line); simpl; [auto|].
  destruct (is_date_line line); simpl; [auto|].
  rewrite Ht. simpl.
  destruct ((10 <? length line) && negb (startswith "http" line)) eqn:Hc.
  - rewrite scan_lines_title_kept; reflexivity.
  - auto.
Qed.

Lemma scan_lines_collect lines st :
  title_found st = true -> abstract_start st = false ->
  abstract_lines st = [] ->
  abstract_lines (scan_lines lines st) = [] \/
  exists line, abstract_lines (scan_lines lines st) = [line] /\
    find (fun l => 20 <? length l) (scanned lines) = Some line.
Proof.
  intros Ht Ha Hl. induction lines as [|line rest IH]; simpl; [left; exact Hl|].
  unfold scanned in *. simpl.
  destruct (is_header line); simpl; [exact IH|].
  destruct (is_date_line line); simpl; [exact IH|].
  rewrite Ht, Ha. simpl.
  destruct (is_stop_line line); [left; exact Hl|].
  destruct (20 <? length line) eqn:Hlen.
  - right. exists line. split; [|reflexivity].
    rewrite scan_lines_done by (simpl; auto). simpl. rewrite Hl. reflexivity.
  - exact IH.
Qed.

Lemma scan_lines_abstract lines :
  abstract_lines (scan_lines lines scan_init) = [] \/
  exists line, abstract_lines (scan_lines lines scan_init) = [line] /\
    find (fun l => 20 <? length l)
         (after_found title_candidate (scanned lines)) = Some line.
Proof.
  induction lines as [|line rest IH]; simpl; [left; reflexivity|].
  unfold scanned in *. simpl. unfold title_candidate at 1.
  destruct (is_header line) eqn:Hh; simpl; [exact IH|].
  destruct (is_date_line line) eqn:Hd; simpl; [exact IH|].
  rewrite Hh, Hd. simpl.
  destruct ((10 <? length line) && negb (startswith "http" line)) eqn:Hc.
  - apply scan_lines_collect; reflexivity.
  - exact IH.
Qed.

(** ** The matcher *)

Lemma strip_prefix_app p s : strip_prefix p (p ++ s) = Some s.
Proof.
  induction p as [|a p IH]; simpl; [reflexivity|].
  rewrite Ascii.eqb_refl. exact IH.
Qed.

Lemma strip_prefix_Some p s s' : strip_prefix p s = Some s' -> s = p ++ s'.
Proof.
  revert s. induction p as [|a p IH]; intros s H; simpl in *.
  - congruence.
  - destruct s as [|b s]; [discriminate|].
    destruct (Ascii.eqb a b) eqn:E; [|discriminate].
    apply Ascii.eqb_eq in E. subst b. f_equal. auto.
Qed.

Lemma star_greedy_sound {R} p s (k : str -> option R) x :
  star_greedy p s k = Some x ->
  exists s', consumes (Star p) s s' /\ k s' = Some x.
Proof.
  induction s as [|c s IH]; simpl; intros H.
  - exists []. split; [constructor|exact H].
  - destruct (p c) eqn:Hp.
    + destruct (star_greedy p s k) eqn:E.
      * destruct (IH H) as (s' & Hc & Hk).
        exists s'. split; [constructor; assumption|exact Hk].
      * exists (c :: s). split; [constructor|exact H].
    + exists (c :: s). split; [constructor|exact H].
Qed.

Lemma star_lazy_sound {R} p s (k : str -> option R) x :
  star_lazy p s k = Some x ->
  exists s', consumes (LazyStar p) s s' /\ k s' = Some x.
Proof.
  induction s as [|c s IH]; simpl; intros H.
  - destruct (k []) eqn:E; [|discriminate].
    exists []. split; [constructor|congruence].
  - destruct (k (c :: s)) eqn:E.
    + exists (c :: s). split; [constructor|congruence].
    + destruct (p c) eqn:Hp; [|discriminate].
      destruct (IH H) as (s' & Hc & Hk).
      exists s'. split; [constructor; assumption|exact Hk].
Qed.

(** Every answer of the matcher comes from a match of the pattern
    followed by an answer of the continuation. *)
Lemma exec_sound r : forall R s g (k : str -> option str -> option R) x,
  exec r R s g k = Some x ->
  exists s' g', consumes r s s' /\ k s' g' = Some x.
Proof.
  induction r as [l|p|p|p|r1 IH1 r2 IH2|r1 IH1 r2 IH2|r1 IH1| |r1 IH1];
    intros R s g k x H; simpl in H.
  - destruct (strip_prefix l s) as [s'|] eqn:E; [|discriminate].
    apply strip_prefix_Some in E. subst s.
    exists s', g. split; [constructor|exact H].
  - destruct s as [|c s]; [discriminate|].
    destruct (p c) eqn:Hp; [|discriminate].
    exists s, g. split; [constructor; exact Hp|exact H].
  - apply star_greedy_sound in H. destruct H as (s' & Hc & Hk). eauto.
  - apply star_lazy_sound in H. destruct H as (s' & Hc & Hk). eauto.
  - apply IH1 in H. destruct H as (s1 & g1 & Hc1 & H).
    apply IH2 in H. destruct H as (s2 & g2 & Hc2 & H).
    exists s2, g2. split; [econstructor; eassumption|exact H].
  - destruct (exec r1 R s g k) eqn:E.
    + apply IH1 in E. destruct E as (s' & g' & Hc & Hk).
      exists s', g'. split; [apply consumes_Alt_l; exact Hc|congruence].
    + apply IH2 in H. destruct H as (s' & g' & Hc & Hk).
      exists s', g'. split; [apply consumes_Alt_r; exact Hc|exact Hk].
  - apply IH1 in H. destruct H as (s' & g' & Hc & Hk).
    eexists s', _. split; [constructor; exact Hc|exact Hk].
  - destruct (at_end s) eqn:E; [|discriminate].
    exists s, g. split; [constructor; exact E|exact H].
  - destruct (exec r1 unit s g (fun _ _ => Some tt)) eqn:E; [|discriminate].
    apply IH1 in E. destruct E as (s' & g' & Hc & _).
    exists s, g. split; [econstructor; exact Hc|exact H].
Qed.

Lemma consumes_suffix r s s' :
  consumes r s s' -> exists h, s = h ++ s'.
Proof.
  induction 1 as [l s|p c s Hp|p s|p c s s' Hp _ IH|p s|p c s s' Hp _ IH
                 |r1 r2 s s1 s2 _ IH1 _ IH2|r1 r2 s s' _ IH|r1 r2 s s' _ IH
                 |r s s' _ IH|s He|r s s' _ IH].
  - exists l. reflexivity.
  - exists [c]. reflexivity.
  - exists []. reflexivity.
  - destruct IH as [h ->]. exists (c :: h). reflexivity.
  - exists []. reflexivity.
  - destruct IH as [h ->]. exists (c :: h). reflexivity.
  - destruct IH1 as [h1 ->]. destruct IH2 as [h2 ->].
    exists (h1 ++ h2). rewrite <- app_assoc. reflexivity.
  - exact IH.
  - exact IH.
  - exact IH.
  - exists []. reflexivity.
  - exists []. reflexivity.
Qed.

(** A pattern that avoids [c] matches no text with [c] in it. *)
Lemma consumes_avoids c r s s' :
  consumes r s s' -> avoids c r = true ->
  exists h, s = h ++ s' /\ ~ In c h.
Proof.
  induction 1 as [l s|p d s Hp|p s|p d s s' Hp _ IH|p s|p d s s' Hp _ IH
                 |r1 r2 s s1 s2 _ IH1 _ IH2|r1 r2 s s' _ IH|r1 r2 s s' _ IH
                 |r s s' _ IH|s He|r s s' _ IH]; simpl; intros Ha.
  - exists l. split; [reflexivity|].
    intros Hin. apply negb_true_iff in Ha.
    assert (existsb (Ascii.eqb c) l = true); [|congruence].
    apply existsb_exists. exists c. split; [exact Hin|apply Ascii.eqb_refl].
  - exists [d]. split; [reflexivity|].
    intros [->|[]]. rewrite Hp in Ha. discriminate.
  - exists []. split; [reflexivity|intros []].
  - destruct (IH Ha) as (h & -> & Hn). exists (d :: h).
    split; [reflexivity|]. intros [->|Hin]; [|auto].
    rewrite Hp in Ha. discriminate.
  - exists []. split; [reflexivity|intros []].
  - destruct (IH Ha) as (h & -> & Hn). exists (d :: h).
    split; [reflexivity|]. intros [->|Hin]; [|auto].
    rewrite Hp in Ha. discriminate.
  - apply andb_true_iff in Ha. destruct Ha as [Ha1 Ha2].
    destruct (IH1 Ha1) as (h1 & -> & Hn1).
    destruct (IH2 Ha2) as (h2 & -> & Hn2).
    exists (h1 ++ h2). rewrite <- app_assoc. split; [reflexivity|].
    intros Hin. apply in_app_or in Hin. tauto.
  - apply andb_true_iff in Ha. tauto.
  - apply andb_true_iff in Ha. tauto.
  - auto.
  - exists []. split; [reflexivity|intros []].
  - exists []. split; [reflexivity|intros []].
Qed.

(** The lazy repetition stops at the first place where the rest of the
    pattern matches. *)
Lemma star_lazy_first {R} p s (k : str -> option R) x :
  star_lazy p s k = Some x ->
  exists t s', s = t ++ s' /\ forallb p t = true /\ k s' = Some x /\
    forall t1 t2, t = t1 ++ t2 -> t2 <> [] -> k (t2 ++ s') = None.
Proof.
  induction s as [|c s IH]; simpl; intros H.
  - destruct (k []) eqn:E; [|discriminate].
    exists [], []. repeat split; [congruence|].
    intros t1 t2 Ht Hne. destruct t1, t2; simpl in Ht; congruence.
  - destruct (k (c :: s)) eqn:E.
    + exists [], (c :: s). repeat split; [congruence|].
      intros t1 t2 Ht Hne. destruct t1, t2; simpl in Ht; congruence.
    + destruct (p c) eqn:Hp; [|discriminate].
      destruct (IH H) as (t & s' & -> & Hall & Hk & Hfirst).
      exists (c :: t), s'. simpl. rewrite Hp.
      repeat split; [exact Hall|exact Hk|].
      intros t1 t2 Ht Hne. destruct t1 as [|d t1]; simpl in Ht.
      * subst t2. exact E.
      * injection Ht as -> Ht. eauto.
Qed.

Lemma star_lazy_ext {R} p s (k1 k2 : str -> option R) :
  (forall s', k1 s' = k2 s') -> star_lazy p s k1 = star_lazy p s k2.
Proof.
  intros Hk. induction s as [|c s IH]; simpl; rewrite Hk; [reflexivity|].
  rewrite IH. reflexivity.
Qed.

(** A greedy repetition that ends the pattern takes all it can. *)
Lemma star_greedy_all {R} p s (k : str -> option R) :
  (forall s', k s' <> None) ->
  star_greedy p s k = k (dropwhile p s).
Proof.
  intros Hk. induction s as [|c s IH]; simpl; [reflexivity|].
  destruct (p c); [|reflexivity].
  rewrite IH. destruct (k (dropwhile p s)) eqn:E; [reflexivity|].
  exfalso. eapply Hk, E.
Qed.

Lemma re_search_Some r s m :
  re_search r s = Some m ->
  exists pre rest, s = pre ++ rest /\ match_here r rest = Some m /\
    forall p1 p2, pre = p1 ++ p2 -> p2 <> [] -> match_here r (p2 ++ rest) = None.
Proof.
  induction s as [|c s IH]; simpl; intros H.
  - destruct (match_here r []) eqn:E; [|discriminate].
    exists [], []. repeat split; [congruence|].
    intros p1 p2 Hp Hne. destruct p1, p2; simpl in Hp; congruence.
  - destruct (match_here r (c :: s)) eqn:E.
    + exists [], (c :: s). repeat split; [congruence|].
      intros p1 p2 Hp Hne. destruct p1, p2; simpl in Hp; congruence.
    + destruct (IH H) as (pre & rest & -> & Hm & Hleft).
      exists (c :: pre), rest. repeat split; [exact Hm|].
      intros p1 p2 Hp Hne. destruct p1 as [|d p1]; simpl in Hp.
      * subst p2. exact E.
      * injection Hp as -> Hp. eauto.
Qed.

Lemma re_search_None r s :
  re_search r s = None ->
  forall p1 p2, s = p1 ++ p2 -> match_here r p2 = None.
Proof.
  induction s as [|c s IH]; simpl; intros H p1 p2 Hs.
  - destruct p1, p2; try discriminate.
    destruct (match_here r []); [discriminate|reflexivity].
  - destruct (match_here r (c :: s)) eqn:E; [discriminate|].
    destruct p1 as [|d p1]; simpl in Hs.
    + subst p2. exact E.
    + injection Hs as -> Hs. eauto.
Qed.

(** ** White space *)

Lemma strip_app_space s c : is_space c = true -> strip (s ++ [c]) = strip s.
Proof.
  intros Hc. unfold strip, rstrip. rewrite rev_app_distr. simpl.
  rewrite Hc. reflexivity.
Qed.

(** ** Footnotes *)

Lemma star_lazy_capture (stop : str -> bool) s : forall h,
  stop [] = true ->
  star_lazy any_char s
    (fun s' => if stop s'
               then Some (Some (firstn (length (h ++ s) - length s') (h ++ s)))
               else None)
  = Some (Some (h ++ lazy_prefix stop s)).
Proof.
  induction s as [|c s IH]; intros h Hnil.
  - simpl. rewrite Hnil. rewrite app_nil_r, Nat.sub_0_r, firstn_all.
    reflexivity.
  - cbn [star_lazy lazy_prefix]. destruct (stop (c :: s)) eqn:E.
    + rewrite app_nil_r. f_equal. f_equal.
      rewrite length_app, Nat.add_sub.
      rewrite firstn_app, firstn_all, Nat.sub_diag. simpl.
      apply app_nil_r.
    + cbn [any_char]. specialize (IH (h ++ [c]) Hnil).
      rewrite <- !app_assoc in IH. simpl in IH. exact IH.
Qed.

Lemma match_here_footnotes s :
  match_here footnotes_re s =
  match strip_prefix "Footnotes" s with
  | Some rest => Some (Some (lazy_prefix footnotes_stop rest))
  | None => None
  end.
Proof.
  unfold match_here, footnotes_re. cbn [Cats exec].
  destruct (strip_prefix "Footnotes" s) as [rest|]; [|reflexivity].
  change (lazy_prefix footnotes_stop rest)
    with ([] ++ lazy_prefix footnotes_stop rest).
  rewrite <- (star_lazy_capture footnotes_stop rest []) by reflexivity.
  apply star_lazy_ext. intros s'. cbn [app].
  unfold footnotes_stop, startswith.
  destruct (strip_prefix "Contribution" s'); [reflexivity|].
  cbn [orb]. destruct (at_end s'); reflexivity.
Qed.

Lemma group1_footnotes text :
  group1 footnotes_re text =
  option_map (lazy_prefix footnotes_stop) (after_first "Footnotes" text).
Proof.
  unfold group1.
  induction text as [|c text IH]; cbn [re_search after_first];
    rewrite match_here_footnotes.
  - reflexivity.
  - destruct (strip_prefix "Footnotes" (c :: text)); [reflexivity|exact IH].
Qed.

Lemma before_first_lazy_prefix s :
  before_first "Contribution" s = lazy_prefix footnotes_stop s \/
  before_first "Contribution" s = lazy_prefix footnotes_stop s ++ [newline].
Proof.
  induction s as [|c s IH].
  - left. reflexivity.
  - cbn [before_first lazy_prefix]. unfold footnotes_stop at 1 3.
    destruct (startswith "Contribution" (c :: s)); [left; reflexivity|].
    cbn [orb]. destruct (at_end (c :: s)) eqn:E.
    + right. destruct s; [|discriminate].
      simpl in E. apply Ascii.eqb_eq in E. subst c. reflexivity.
    + destruct IH as [->| ->]; [left|right]; reflexivity.
Qed.

(** C7. The footnotes field is the text after the first "Footnotes" of
    the page text, up to the next "Contribution" or to the end of the
    text, newlines included, with the white space around it removed
    (and empty when the page has no "Footnotes"). It is computed from
    the whole page text alone: the line loop has no part in it. *)
Theorem footnotes_after_marker text page_num :
  footnotes (fields text page_num) = footnotes_spec text.
Proof.
  unfold fields. destruct (match group1 code_re text with
                           | Some c => _ | None => _ end) as [[cc sc] sn].
  cbn [footnotes]. unfold field, footnotes_spec.
  rewrite group1_footnotes.
  destruct (after_first "Footnotes" text) as [rest|]; [|reflexivity].
  cbn [option_map].
  destruct (before_first_lazy_prefix rest) as [-> | ->]; [reflexivity|].
  symmetry. apply strip_app_space. reflexivity.
Qed.

(** ** Date and time *)

Lemma forallb_not_In (p : ascii -> bool) c t :
  forallb p t = true -> p c = false -> ~ In c t.
Proof.
  intros Hall Hc Hin. rewrite forallb_forall in Hall.
  apply Hall in Hin. congruence.
Qed.

Lemma firstn_app_exact (h t : str) : firstn (length (h ++ t) - length t) (h ++ t) = h.
Proof.
  rewrite length_app, Nat.add_sub.
  rewrite firstn_app, firstn_all, Nat.sub_diag. simpl. apply app_nil_r.
Qed.

Lemma match_here_datetime s m :
  match_here datetime_re s = Some m ->
  exists head tail post,
    s = head ++ tail ++ post /\ m = Some (head ++ tail) /\
    consumes date_core s (tail ++ post) /\
    ~ In "("%char (head ++ tail) /\ ~ In newline tail /\
    (startswith "(" post || at_end post) = true.
Proof.
  unfold match_here, datetime_re. cbn [exec]. intros H.
  apply exec_sound in H. destruct H as (s1 & g1 & Hcore & H).
  apply star_lazy_first in H.
  destruct H as (tail & post & -> & Hall & Hk & Hfirst).
  destruct (consumes_avoids "("%char _ _ _ Hcore) as (head & -> & Hhead);
    [reflexivity|].
  exists head, tail, post. repeat split.
  - destruct (strip_prefix "(" post); [|destruct (at_end post)];
      try discriminate; injection Hk as <-; f_equal;
      rewrite (app_assoc head tail post); apply firstn_app_exact.
  - exact Hcore.
  - intros Hin. apply in_app_or in Hin. destruct Hin as [Hin|Hin]; [auto|].
    apply in_split in Hin. destruct Hin as (t1 & t2 & ->).
    specialize (Hfirst t1 ("("%char :: t2) eq_refl ltac:(discriminate)).
    simpl in Hfirst. discriminate.
  - apply forallb_not_In with (p := not_newline); [exact Hall|reflexivity].
  - unfold startswith. destruct (strip_prefix "(" post); [reflexivity|].
    destruct (at_end post); [reflexivity|discriminate].
Qed.

Lemma group1_Some r s g :
  group1 r s = Some g -> re_search r s = Some (Some g).
Proof.
  unfold group1. destruct (re_search r s) as [[g'|]|]; congruence.
Qed.

(** What the search of the code returns. The date_time field is the
    first capture of the leftmost match of the date pattern in the whole
    page text, with the white space around it removed, and it is empty
    when the pattern matches nowhere. A capture is a date and time
    followed by a tail that holds no newline; it holds no "(", and in
    the text it is followed by a "(" or by the end of the text (one last
    newline apart). *)
Theorem date_time_first_match text page_num :
  match group1 datetime_re text with
  | None => date_time (fields text page_num) = []
  | Some g =>
      date_time (fields text page_num) = strip g /\
      exists pre head tail post,
        text = pre ++ head ++ tail ++ post /\ g = head ++ tail /\
        consumes date_core (head ++ tail ++ post) (tail ++ post) /\
        ~ In "("%char g /\ ~ In newline tail /\
        (startswith "(" post || at_end post) = true /\
        forall p1 p2, pre = p1 ++ p2 -> p2 <> [] ->
          match_here datetime_re (p2 ++ head ++ tail ++ post) = None
  end.
Proof.
  assert (Hd : date_time (fields text page_num) = field strip datetime_re text).
  { unfold fields. destruct (match group1 code_re text with
                             | Some c => _ | None => _ end) as [[cc sc] sn].
    reflexivity. }
  rewrite Hd. unfold field.
  destruct (group1 datetime_re text) as [g|] eqn:Hg; [|reflexivity].
  split; [reflexivity|].
  apply group1_Some, re_search_Some in Hg.
  destruct Hg as (pre & rest & -> & Hm & Hleft).
  apply match_here_datetime in Hm.
  destruct Hm as (head & tail & post & -> & Hg & Hcore & Hparen & Hnl & Hend).
  injection Hg as ->.
  exists pre, head, tail, post. repeat split; assumption.
Qed.

(** The code and the wording of the specification part on a date line
    that has no "(" and is followed by further lines. *)
Lemma date_time_not_to_end_of_text :
  ~ (forall text page_num,
       date_time (fields text page_num) = date_time_spec text).
Proof.
  intros H. specialize (H date_page 1). vm_compute in H. discriminate.
Qed.

(** C6 on pages whose date line has no "(" and is followed by further
    lines. The pattern ends in [(?:\(|$)], so it means to take a date
    with no "(" after it, but its [.] stops at the newline and its [$]
    only holds at the end of the text: the code finds no date and time
    on [date_page], where the specification runs the match to the end
    of the text, and on [two_dates_page] it passes over the first date
    and keeps the second. With the "(" on the date line the date is
    found. *)
Theorem date_time_lost_without_paren :
  date_time (fields date_page 1) = [] /\
  date_time_spec date_page = date_page_to_end /\
  date_time (fields two_dates_page 1) = "Tuesday, June 10, 2025 10:00 AM" /\
  date_time (fields date_page_paren 1) = "Monday, June 9, 2025 9:00 AM".
Proof. repeat split; vm_compute; reflexivity. Qed.

(** ** Contribution code and session *)

Lemma match_here_code_label s :
  strip_prefix "Contribution code:" s = None -> match_here code_re s = None.
Proof.
  intros H. unfold match_here, code_re. cbn [Cats exec]. rewrite H. reflexivity.
Qed.

Lemma re_search_code_first text rest m :
  after_first "Contribution code:" text = Some rest ->
  match_here code_re ("Contribution code:" ++ rest) = Some m ->
  re_search code_re text = Some m.
Proof.
  induction text as [|c text IH]; cbn [after_first re_search]; intros Ha Hm.
  - destruct (strip_prefix "Contribution code:" []) eqn:E; [|discriminate].
    discriminate.
  - destruct (strip_prefix "Contribution code:" (c :: text)) as [r|] eqn:E.
    + injection Ha as ->. apply strip_prefix_Some in E. rewrite E, Hm.
      reflexivity.
    + rewrite (match_here_code_label _ E). auto.
Qed.

Lemma length_dropwhile p s : length (dropwhile p s) <= length s.
Proof.
  induction s as [|c s IH]; simpl; [lia|]. destruct (p c); simpl; lia.
Qed.

Lemma match_here_code_MOA007 post :
  exists digits,
    match_here code_re ("Contribution code: MOA007" ++ post)
    = Some (Some ("MOA007" ++ digits)).
Proof.
  exists (firstn (length post - length (dropwhile is_digit post)) post).
  unfold match_here, code_re, Plus. cbn [Cats exec].
  change (list_ascii_of_string "Contribution code: MOA007" ++ post)
    with (list_ascii_of_string "Contribution code:"
          ++ list_ascii_of_string " MOA007" ++ post).
  rewrite strip_prefix_app.
  cbv [list_ascii_of_string app]. cbn [star_greedy].
  class_at_literals is_space. class_at_literals is_upper_AZ.
  class_at_literals is_digit. cbv iota.
  rewrite (star_greedy_all is_digit post) by discriminate.
  cbn [length]. do 3 f_equal.
  pose proof (length_dropwhile is_digit post) as Hle.
  replace (S (S (S (S (S (S (length post))))))
             - length (dropwhile is_digit post))
    with (6 + (length post - length (dropwhile is_digit post))) by lia.
  reflexivity.
Qed.

Lemma fields_code text page_num :
  contribution_code (fields text page_num) = field id code_re text.
Proof.
  unfold fields, field.
  destruct (group1 code_re text) as [c|]; [|reflexivity].
  destruct (3 <=? length c); reflexivity.
Qed.

Lemma fields_session_code text page_num :
  let c := contribution_code (fields text page_num) in
  session_code (fields text page_num)
  = if 3 <=? length c then firstn 3 c else [].
Proof.
  unfold fields.
  destruct (group1 code_re text) as [c|]; [|reflexivity].
  destruct (3 <=? length c) eqn:E; cbn [contribution_code session_code];
    rewrite E; reflexivity.
Qed.

Lemma fields_session text page_num :
  let c := contribution_code (fields text page_num) in
  session (fields text page_num)
  = if 3 <=? length c then get_session_name (firstn 3 c) else [].
Proof.
  unfold fields.
  destruct (group1 code_re text) as [c|]; [|reflexivity].
  destruct (3 <=? length c) eqn:E; cbn [contribution_code session];
    rewrite E; reflexivity.
Qed.

Lemma fields_title text page_num :
  title (fields text page_num)
  = found_title (scan_lines (page_lines text) scan_init).
Proof.
  unfold fields. destruct (match group1 code_re text with
                           | Some c => _ | None => _ end) as [[cc sc] sn].
  reflexivity.
Qed.

Lemma fields_abstract text page_num :
  abstract (fields text page_num)
  = let st := scan_lines (page_lines text) scan_init in
    if nonempty_list (abstract_lines st)
    then join " " (abstract_lines st) else [].
Proof.
  unfold fields. destruct (match group1 code_re text with
                           | Some c => _ | None => _ end) as [[cc sc] sn].
  reflexivity.
Qed.

Lemma nonempty_true (s : str) : nonempty s = true <-> s <> [].
Proof. destruct s; simpl; split; congruence. Qed.

(** The parser returns the dictionary of the [try] block or nothing,
    and leaves the log alone. *)
Lemma parse_contribution_page_eq text page_num self :
  parse_contribution_page text page_num self = (self, parse text page_num).
Proof. reflexivity. Qed.

Lemma parse_eq text page_num :
  parse text page_num =
  if nonempty (contribution_code (fields text page_num))
     && nonempty (title (fields text page_num))
  then Some (fields text page_num) else None.
Proof. reflexivity. Qed.

Lemma parse_Some text page_num r :
  parse text page_num = Some r ->
  r = fields text page_num /\ contribution_code r <> [] /\ title r <> [].
Proof.
  rewrite parse_eq.
  destruct (nonempty (contribution_code (fields text page_num))) eqn:Hc;
    [|discriminate].
  destruct (nonempty (title (fields text page_num))) eqn:Ht; [|discriminate].
  simpl. intros [= <-]. rewrite <- !nonempty_true. auto.
Qed.

(** ** Session classifier *)

Lemma session_names_nonempty code name :
  session_map !! code = Some name -> name <> [].
Proof.
  intros H. apply elem_of_list_to_map_2 in H.
  assert (Hall : Forall (fun kv : str * str => snd kv <> []) session_items).
  { unfold session_items. repeat constructor; discriminate. }
  rewrite Forall_forall in Hall. apply (Hall (code, name)), H.
Qed.

Lemma get_session_name_nonempty code : get_session_name code <> [].
Proof.
  unfold get_session_name. destruct (session_map !! code) as [name|] eqn:E.
  - simpl. eapply session_names_nonempty, E.
  - discriminate.
Qed.

Lemma session_of_first_code_MOA007 text rest page_num :
  after_first "Contribution code:" text = Some rest ->
  startswith " MOA007" rest = true ->
  session_code (fields text page_num) = "MOA" /\
  session (fields text page_num) = "Monday Opening and Awards".
Proof.
  intros Hfirst Hrest. unfold startswith in Hrest.
  destruct (strip_prefix " MOA007" rest) as [post|] eqn:E; [|discriminate].
  apply strip_prefix_Some in E. subst rest.
  destruct (match_here_code_MOA007 post) as [digits Hm].
  assert (Hg : group1 code_re text = Some ("MOA007" ++ digits)).
  { unfold group1.
    rewrite (re_search_code_first text (" MOA007" ++ post) _ Hfirst Hm).
    reflexivity. }
  assert (Hc : contribution_code (fields text page_num) = "MOA007" ++ digits).
  { rewrite fields_code. unfold field. rewrite Hg. reflexivity. }
  rewrite fields_session_code, fields_session, Hc. cbn zeta.
  split; vm_compute; reflexivity.
Qed.

(** C4, as the code has it. The classifier returns a non-empty string
    for every input: the display name of a code of the table ("MOA"
    gives "Monday Opening and Awards") and "Session " followed by the
    code itself for any other ("ZZZ" gives "Session ZZZ"). The parser
    takes the code after the first "Contribution code:" of the page:
    when that one reads " MOA007", a record it returns has session_code
    "MOA" and session "Monday Opening and Awards". *)
Theorem session_classifier :
  (forall code, get_session_name code <> []) /\
  (forall code name,
     session_map !! code = Some name -> get_session_name code = name) /\
  (forall code,
     session_map !! code = None ->
     get_session_name code = "Session " ++ code) /\
  get_session_name "MOA" = "Monday Opening and Awards" /\
  get_session_name "ZZZ" = "Session ZZZ" /\
  (forall text rest page_num r,
     after_first "Contribution code:" text = Some rest ->
     startswith " MOA007" rest = true ->
     parse text page_num = Some r ->
     session_code r = "MOA" /\ session r = "Monday Opening and Awards").
Proof.
  split; [exact get_session_name_nonempty|].
  split; [intros code name H; unfold get_session_name; rewrite H; reflexivity|].
  split; [intros code H; unfold get_session_name; rewrite H; reflexivity|].
  split; [vm_compute; reflexivity|].
  split; [vm_compute; reflexivity|].
  intros text rest page_num r Hfirst Hrest Hr.
  apply parse_Some in Hr. destruct Hr as (-> & _ & _).
  eapply session_of_first_code_MOA007; eassumption.
Qed.

Lemma session_classifier_witness :
  session_code (fields date_page 2) = "MOA" /\
  session (fields date_page 2) = "Monday Opening and Awards".
Proof.
  eapply (proj2 (proj2 (proj2 (proj2 (proj2 session_classifier))))
            date_page _ 2 (fields date_page 2)).
  - vm_compute. reflexivity.
  - vm_compute. reflexivity.
  - vm_compute. reflexivity.
Defined.

(** C4, as the specification words it, fails for a page with another
    contribution code before "Contribution code: MOA007". *)
Lemma session_of_later_code :
  ~ (forall text page_num r,
       contains "Contribution code: MOA007" text = true ->
       parse text page_num = Some r ->
       session_code r = "MOA" /\ session r = "Monday Opening and Awards").
Proof.
  intros H.
  destruct (H two_codes_page 2 (fields two_codes_page 2)) as [Hc _];
    [vm_compute; reflexivity|vm_compute; reflexivity|].
  vm_compute in Hc. discriminate.
Qed.

(** ** Title *)

Lemma find_none_of_all {A} (f : A -> bool) l :
  (forall x, In x l -> f x = false) -> find f l = None.
Proof.
  induction l as [|x l IH]; simpl; intros H; [reflexivity|].
  rewrite (H x) by auto. apply IH. intros y Hy. apply H. auto.
Qed.

Lemma title_first_candidate text page_num :
  title (fields text page_num)
  = match find title_candidate (page_lines text) with
    | Some line => line
    | None => []
    end.
Proof. rewrite fields_title. apply scan_lines_title. reflexivity. Qed.

(** C1. The parser returns a record exactly when the contribution code
    and the title it extracted are both non-empty, and the record is
    then the dictionary it filled; in every other case it returns
    nothing, and it logs no error in either case. So a page with
    "Contribution code: AB123" and no line that qualifies as a title
    gives no record. *)
Theorem parse_validity_gate text page_num :
  ((exists r, parse text page_num = Some r) <->
   contribution_code (fields text page_num) <> [] /\
   title (fields text page_num) <> []) /\
  (forall r, parse text page_num = Some r -> r = fields text page_num) /\
  (parse text page_num = None <->
   contribution_code (fields text page_num) = [] \/
   title (fields text page_num) = []) /\
  (forall self,
     fst (parse_contribution_page text page_num self) = self /\
     snd (parse_contribution_page text page_num self) = parse text page_num) /\
  (contains "Contribution code: AB123" text = true ->
   (forall line, In line (page_lines text) -> title_candidate line = false) ->
   parse text page_num = None).
Proof.
  assert (Hgate : parse text page_num = None <->
                  contribution_code (fields text page_num) = [] \/
                  title (fields text page_num) = []).
  { rewrite parse_eq.
    destruct (contribution_code (fields text page_num)) as [|c cs];
      destruct (title (fields text page_num)) as [|t ts]; simpl;
      split; intros H; try discriminate; auto;
      destruct H; discriminate. }
  split; [|split; [|split; [exact Hgate|split]]].
  - split.
    + intros [r Hr]. apply parse_Some in Hr. destruct Hr as (-> & Hc & Ht). auto.
    + intros [Hc Ht]. apply nonempty_true in Hc, Ht.
      exists (fields text page_num). rewrite parse_eq, Hc, Ht. reflexivity.
  - intros r Hr. apply parse_Some in Hr. tauto.
  - intros self. split; reflexivity.
  - intros _ Hnone. apply Hgate. right.
    rewrite title_first_candidate, find_none_of_all by exact Hnone.
    reflexivity.
Qed.

Lemma parse_validity_gate_witness : parse no_title_page 3 = None.
Proof.
  apply (proj2 (proj2 (proj2 (proj2 (parse_validity_gate no_title_page 3))))).
  - vm_compute. reflexivity.
  - intros line Hin. vm_compute in Hin.
    destruct Hin as [<-|[<-|[]]]; vm_compute; reflexivity.
Defined.

(** The lines of a page are trimmed and not empty. *)

Lemma lstrip_starts_clean s : starts_clean (lstrip s).
Proof.
  induction s as [|c s IH]; simpl.
  - intros d s' H. discriminate.
  - destruct (is_space c) eqn:E; [exact IH|].
    intros d s' [= <- <-]. exact E.
Qed.

Lemma lstrip_clean s : starts_clean s -> lstrip s = s.
Proof.
  destruct s as [|c s]; simpl; intros H; [reflexivity|].
  rewrite (H c s eq_refl). reflexivity.
Qed.

Lemma lstrip_suffix s : exists pre, s = pre ++ lstrip s.
Proof.
  induction s as [|c s IH]; simpl.
  - exists []. reflexivity.
  - destruct (is_space c).
    + destruct IH as [pre IH]. exists (c :: pre). simpl. congruence.
    + exists []. reflexivity.
Qed.

Lemma lstrip_ends_clean s : ends_clean s -> ends_clean (lstrip s).
Proof.
  intros H s' c Hs. destruct (lstrip_suffix s) as [pre Hpre].
  apply (H (pre ++ s') c). rewrite Hpre at 1. rewrite Hs.
  apply app_assoc.
Qed.

Lemma rev_starts_clean s : starts_clean s -> ends_clean (rev s).
Proof.
  intros H s' c Hs. apply (H c (rev s')).
  rewrite <- (rev_involutive s), Hs, rev_app_distr. reflexivity.
Qed.

Lemma rev_ends_clean s : ends_clean s -> starts_clean (rev s).
Proof.
  intros H c s' Hs. apply (H (rev s') c).
  rewrite <- (rev_involutive s), Hs. reflexivity.
Qed.

Lemma strip_clean s : starts_clean s -> ends_clean s -> strip s = s.
Proof.
  intros Hs He. unfold strip, rstrip.
  rewrite (lstrip_clean (rev s)) by (apply rev_ends_clean, He).
  rewrite rev_involutive. apply lstrip_clean, Hs.
Qed.

Lemma strip_idempotent s : strip (strip s) = strip s.
Proof.
  apply strip_clean.
  - apply lstrip_starts_clean.
  - unfold strip, rstrip. apply lstrip_ends_clean, rev_starts_clean,
      lstrip_starts_clean.
Qed.

Lemma page_lines_trimmed text line :
  In line (page_lines text) -> strip line = line /\ line <> [].
Proof.
  unfold page_lines. rewrite in_map_iff. intros (x & <- & Hx).
  apply filter_In in Hx. destruct Hx as [_ Hx].
  split; [apply strip_idempotent|apply nonempty_true, Hx].
Qed.

Lemma scan_lines_skip line rest :
  title_candidate line = false ->
  found_title (scan_lines (line :: rest) scan_init)
  = found_title (scan_lines rest scan_init).
Proof.
  intros H. rewrite !scan_lines_title by reflexivity.
  cbn [find]. rewrite H. reflexivity.
Qed.

(** C3. The title is the first of the trimmed, non-empty lines of the
    page that holds no header marker in any letter case, does not match
    the date pattern, is longer than 10 characters and does not start
    with "http", and it is empty when no line is such. A line of 10
    characters or fewer, or one that starts with "http", is passed over
    and the search goes on with the next line; the title never starts
    with "http". *)
Theorem title_is_first_candidate text page_num :
  title (fields text page_num)
  = match find title_candidate (page_lines text) with
    | Some line => line
    | None => []
    end /\
  (forall line, In line (page_lines text) -> strip line = line /\ line <> []) /\
  (forall line,
     title_candidate line = true <->
     is_header line = false /\ is_date_line line = false /\
     10 < length line /\ startswith "http" line = false) /\
  (forall line rest,
     length line <= 10 \/ startswith "http" line = true ->
     found_title (scan_lines (line :: rest) scan_init)
     = found_title (scan_lines rest scan_init)) /\
  startswith "http" (title (fields text page_num)) = false.
Proof.
  assert (Hcand : forall line,
     title_candidate line = true <->
     is_header line = false /\ is_date_line line = false /\
     10 < length line /\ startswith "http" line = false).
  { intros line. unfold title_candidate.
    rewrite !andb_true_iff, !negb_true_iff, Nat.ltb_lt. tauto. }
  split; [apply title_first_candidate|].
  split; [apply page_lines_trimmed|].
  split; [exact Hcand|].
  split.
  - intros line rest H. apply scan_lines_skip.
    destruct (title_candidate line) eqn:E; [|reflexivity].
    apply Hcand in E. destruct E as (_ & _ & Hlen & Hhttp).
    destruct H as [H|H]; [lia|congruence].
  - rewrite title_first_candidate.
    destruct (find title_candidate (page_lines text)) as [line|] eqn:E;
      [|reflexivity].
    apply find_some in E. destruct E as [_ E]. apply Hcand in E. tauto.
Qed.

Example title_of_intro_page :
  title (fields intro_page 1) = "Opening remarks of the chair".
Proof. vm_compute. reflexivity. Qed.

Lemma title_is_first_candidate_witness :
  found_title
    (scan_lines (list_ascii_of_string "Intro" :: page_lines intro_page) scan_init)
  = found_title (scan_lines (page_lines intro_page) scan_init).
Proof.
  apply (proj1 (proj2 (proj2 (proj2 (title_is_first_candidate intro_page 1))))).
  left. vm_compute. lia.
Defined.

(** ** Abstract *)

Lemma in_after_found {A} (f : A -> bool) l x :
  In x (after_found f l) -> In x l.
Proof.
  induction l as [|y l IH]; simpl; [tauto|].
  destruct (f y); auto.
Qed.

(** C9. The abstract of a record is empty or is one line of the page:
    the first one longer than 20 characters among the lines after the
    title that the loop does not skip as header or date lines. The list
    of abstract lines never holds more than one line, so nothing is
    joined. *)
Theorem abstract_is_one_line text page_num r :
  parse text page_num = Some r ->
  length (abstract_lines (scan_lines (page_lines text) scan_init)) <= 1 /\
  (abstract r = [] \/
   In (abstract r) (page_lines text) /\
   20 < length (abstract r) /\
   find (fun line => 20 <? length line)
        (after_found title_candidate (scanned (page_lines text)))
   = Some (abstract r)).
Proof.
  intros Hr. apply parse_Some in Hr. destruct Hr as (-> & _ & _).
  rewrite fields_abstract. cbn zeta.
  destruct (scan_lines_abstract (page_lines text)) as [H|(line & H & Hfind)];
    rewrite H; simpl.
  - split; [lia|left; reflexivity].
  - split; [lia|right].
    pose proof (find_some _ _ Hfind) as [Hin Hlen].
    apply in_after_found in Hin. unfold scanned in Hin.
    apply filter_In in Hin. apply Nat.ltb_lt in Hlen. tauto.
Qed.

Lemma abstract_is_one_line_witness :
  length (abstract_lines (scan_lines (page_lines example_page) scan_init)) <= 1 /\
  (abstract (fields example_page 5) = [] \/
   In (abstract (fields example_page 5)) (page_lines example_page) /\
   20 < length (abstract (fields example_page 5)) /\
   find (fun line => 20 <? length line)
        (after_found title_candidate (scanned (page_lines example_page)))
   = Some (abstract (fields example_page 5))).
Proof.
  apply (abstract_is_one_line example_page 5 (fields example_page 5)).
  vm_compute. reflexivity.
Defined.

(** C2 on a page with two abstract lines: the code keeps the first line
    only, where the specification adds the second. *)
Theorem abstract_drops_second_line :
  abstract (fields two_line_abstract_page 1) = "The first line of the abstract." /\
  abstract_spec two_line_abstract_page
  = "The first line of the abstract. Its second line.".
Proof. split; vm_compute; reflexivity. Qed.

(** ** Session code *)

(** C10. In a record of the parser the session code is the first three
    characters of the contribution code, or empty, and it is empty
    exactly when the contribution code has fewer than three characters;
    the session is non-empty exactly when the session code is. *)
Theorem session_code_of_record text page_num r :
  parse text page_num = Some r ->
  (session_code r = [] \/ session_code r = firstn 3 (contribution_code r)) /\
  (session_code r = [] <-> length (contribution_code r) < 3) /\
  (session r <> [] <-> session_code r <> []).
Proof.
  intros Hr. apply parse_Some in Hr. destruct Hr as (-> & _ & _).
  rewrite fields_session_code, fields_session. cbn zeta.
  destruct (3 <=? length (contribution_code (fields text page_num))) eqn:E.
  - apply Nat.leb_le in E.
    assert (Hne : firstn 3 (contribution_code (fields text page_num)) <> []).
    { intros H. apply (f_equal (@length ascii)) in H.
      rewrite length_firstn in H. cbn [length] in H. lia. }
    split; [right; reflexivity|]. split.
    + split; [intros H; contradiction|lia].
    + split; [intros _; exact Hne|intros _; apply get_session_name_nonempty].
  - apply Nat.leb_gt in E.
    split; [left; reflexivity|]. split.
    + split; [intros _; exact E|reflexivity].
    + split; intros H; contradiction.
Qed.

Lemma session_code_of_record_witness :
  (session_code (fields short_code_page 1) = [] \/
   session_code (fields short_code_page 1)
   = firstn 3 (contribution_code (fields short_code_page 1))) /\
  (session_code (fields short_code_page 1) = [] <->
   length (contribution_code (fields short_code_page 1)) < 3) /\
  (session (fields short_code_page 1) <> [] <->
   session_code (fields short_code_page 1) <> []).
Proof.
  apply (session_code_of_record short_code_page 1 (fields short_code_page 1)).
  vm_compute. reflexivity.
Defined.

Example session_code_of_short_code :
  exists r, parse short_code_page 1 = Some r /\
    contribution_code r = "A1" /\ session_code r = [] /\ session r = [].
Proof. eexists. split; [vm_compute; reflexivity|]. repeat split. Qed.

(** ** The page of the specification *)

(** C5. The example page of the specification, parsed as page 5, gives
    a record with contribution_id "42", contribution_code "TUB003",
    session_code "TUB", session "Tuesday Oral Session B", type
    "Oral Presentation", the title "Superconducting Cavity Performance
    Improvements", an abstract that holds the sentence on cavity
    degradation, footnotes that hold "Supported by Grant XYZ." and
    page_number 5. *)
Theorem example_page_record :
  exists r, parse example_page 5 = Some r /\
    contribution_id r = "42" /\
    contribution_code r = "TUB003" /\
    session_code r = "TUB" /\
    session r = "Tuesday Oral Session B" /\
    type r = "Oral Presentation" /\
    title r = "Superconducting Cavity Performance Improvements" /\
    contains cavity_sentence (abstract r) = true /\
    contains "Supported by Grant XYZ." (footnotes r) = true /\
    page_number r = 5.
Proof.
  eexists. split; [vm_compute; reflexivity|].
  repeat split; vm_compute; reflexivity.
Qed.

(** ** The page loop *)

Section PageLoop.

Variable try_block : str -> nat -> outcome contribution.

Lemma parse_page_contributions text page_num self :
  contributions (fst (parse_page try_block text page_num self))
  = contributions self.
Proof.
  unfold parse_page. destruct (try_block text page_num); reflexivity.
Qed.

Lemma parse_page_result text page_num self :
  snd (parse_page try_block text page_num self)
  = snd (parse_page try_block text page_num new_extractor).
Proof.
  unfold parse_page. destruct (try_block text page_num); reflexivity.
Qed.

Lemma parse_page_log text page_num self :
  exists evs, log (fst (parse_page try_block text page_num self))
              = log self ++ evs.
Proof.
  unfold parse_page. destruct (try_block text page_num).
  - exists []. simpl. rewrite app_nil_r. reflexivity.
  - eexists. reflexivity.
Qed.

Lemma process_page_contributions page_num pg self :
  contributions (process_page try_block page_num pg self)
  = contributions self ++ page_records try_block page_num pg.
Proof.
  unfold process_page, page_records. destruct pg as [text|e].
  - destruct (nonempty (strip text)); [|simpl; rewrite app_nil_r; reflexivity].
    rewrite <- (parse_page_result text (page_num + 1) self).
    pose proof (parse_page_contributions text (page_num + 1) self) as Hc.
    destruct (parse_page try_block text (page_num + 1) self) as [self' [c|]];
      simpl in *; rewrite Hc; [reflexivity|].
    rewrite app_nil_r. reflexivity.
  - simpl. rewrite app_nil_r. reflexivity.
Qed.

Lemma process_page_log page_num pg self :
  exists evs, log (process_page try_block page_num pg self) = log self ++ evs.
Proof.
  unfold process_page. destruct pg as [text|e].
  - destruct (nonempty (strip text)).
    + destruct (parse_page_log text (page_num + 1) self) as [evs Hl].
      destruct (parse_page try_block text (page_num + 1) self) as [self' [c|]];
        simpl in *; rewrite Hl.
      * eexists. rewrite <- app_assoc. reflexivity.
      * eexists. reflexivity.
    + exists []. rewrite app_nil_r. reflexivity.
  - eexists. reflexivity.
Qed.

Lemma process_page_failure page_num pg self ev :
  failure try_block page_num pg = Some ev ->
  In ev (log (process_page try_block page_num pg self)) /\
  page_records try_block page_num pg = [].
Proof.
  unfold failure, process_page, page_records, parse_page.
  destruct pg as [text|e].
  - destruct (nonempty (strip text)); [|discriminate].
    destruct (try_block text (page_num + 1)) as [c|e]; [discriminate|].
    intros [= <-]. simpl. split; [|reflexivity].
    apply in_or_app. right. left. reflexivity.
  - intros [= <-]. simpl. split; [|reflexivity].
    apply in_or_app. right. left. reflexivity.
Qed.

Lemma page_loop_app page_num before after self :
  page_loop try_block page_num (before ++ after) self
  = page_loop try_block (page_num + length before) after
      (page_loop try_block page_num before self).
Proof.
  revert page_num self.
  induction before as [|pg before IH]; intros page_num self; simpl.
  - rewrite Nat.add_0_r. reflexivity.
  - rewrite IH. f_equal. lia.
Qed.

Lemma page_loop_contributions pages : forall page_num self,
  contributions (page_loop try_block page_num pages self)
  = contributions self ++ records_from try_block page_num pages.
Proof.
  induction pages as [|pg pages IH]; intros page_num self; simpl.
  - rewrite app_nil_r. reflexivity.
  - rewrite IH, process_page_contributions, <- app_assoc. reflexivity.
Qed.

Lemma page_loop_log pages : forall page_num self,
  exists evs, log (page_loop try_block page_num pages self) = log self ++ evs.
Proof.
  induction pages as [|pg pages IH]; intros page_num self; simpl.
  - exists []. rewrite app_nil_r. reflexivity.
  - destruct (IH (S page_num) (process_page try_block page_num pg self))
      as [evs1 ->].
    destruct (process_page_log page_num pg self) as [evs2 ->].
    eexists. rewrite <- app_assoc. reflexivity.
Qed.

Lemma failure_page_number page_num pg ev :
  failure try_block page_num pg = Some ev ->
  exists e, ev = ErrorProcessingPage (page_num + 1) e \/
            ev = ErrorParsingPage (page_num + 1) e.
Proof.
  unfold failure. destruct pg as [text|e].
  - destruct (nonempty (strip text)); [|discriminate].
    destruct (try_block text (page_num + 1)) as [c|e]; [discriminate|].
    intros [= <-]. eauto.
  - intros [= <-]. eauto.
Qed.

End PageLoop.

(** C8. Whatever the [try] block of the parser does, a page that raises
    (in the text extraction or inside the parser) adds no record, is
    logged as an error with its page number, and leaves the loop
    running: the records of the run are those of the pages before it
    followed by those of the pages after it, each page parsed on its
    own. *)
Theorem page_failure_is_local
    (try_block : str -> nat -> outcome contribution)
    (before after : list page) (pg : page) (first : nat)
    (self : extractor) (ev : event) :
  failure try_block (first + length before) pg = Some ev ->
  let final := page_loop try_block first (before ++ pg :: after) self in
  page_records try_block (first + length before) pg = [] /\
  contributions final
  = contributions self ++ records_from try_block first before
    ++ records_from try_block (S (first + length before)) after /\
  In ev (log final) /\
  exists e, ev = ErrorProcessingPage (first + length before + 1) e \/
            ev = ErrorParsingPage (first + length before + 1) e.
Proof.
  intros Hfail final. subst final.
  destruct (process_page_failure try_block _ pg
              (page_loop try_block first before self) ev Hfail) as [Hin Hrec].
  split; [exact Hrec|]. split; [|split].
  - rewrite page_loop_app. cbn [page_loop].
    rewrite page_loop_contributions, process_page_contributions, Hrec.
    rewrite page_loop_contributions, app_nil_r, <- app_assoc. reflexivity.
  - rewrite page_loop_app. cbn [page_loop].
    destruct (page_loop_log try_block after (S (first + length before))
                (process_page try_block (first + length before) pg
                   (page_loop try_block first before self))) as [evs ->].
    apply in_or_app. left. exact Hin.
  - eapply failure_page_number, Hfail.
Qed.

Lemma page_failure_is_local_witness :
  contributions (page_loop parse_body 1 damaged_run new_extractor)
  = records_from parse_body 1 [Returns example_page]
    ++ records_from parse_body 3 [Returns date_page_paren] /\
  In (ErrorProcessingPage 3 "damaged page")
     (log (page_loop parse_body 1 damaged_run new_extractor)).
Proof.
  pose proof (page_failure_is_local parse_body
                [Returns example_page] [Returns date_page_paren]
                damaged_page 1 new_extractor
                (ErrorProcessingPage 3 "damaged page") eq_refl) as H.
  split; [exact (proj1 (proj2 H))|exact (proj1 (proj2 (proj2 H)))].
Defined.

(** The handler of the parser: nothing is returned and the page number
    is logged. *)
Lemma parse_page_raises try_block text page_num self e :
  try_block text page_num = Raises e ->
  parse_page try_block text page_num self
  = (logged (ErrorParsingPage page_num e) self, None).
Proof. unfold parse_page. intros ->. reflexivity. Qed.

(** The run over a readable file returns the records of its pages from
    the second on, each page parsed on its own. *)
Lemma extract_contributions_records pages self :
  snd (extract_contributions (Returns pages) self)
  = contributions self ++ records_from parse_body 1 (drop 1 pages).
Proof.
  unfold extract_contributions, extract_with. cbn [snd logged contributions].
  rewrite page_loop_contributions. reflexivity.
Qed.

Example damaged_run_records :
  map page_number (records_from parse_body 0 damaged_run) = [1; 3].
Proof. vm_compute. reflexivity. Qed.

(** * Further properties of the code *)

(** ** The labelled fields *)

Lemma consumes_Star_all p s s' :
  consumes (Star p) s s' -> exists h, s = h ++ s' /\ forallb p h = true.
Proof.
  intros H. remember (Star p) as r eqn:Hr.
  induction H as [l s|q c s Hq|q s|q c s s' Hq _ IH|q s|q c s s' Hq _ IH
                 |r1 r2 s s1 s2 _ _ _ _|r1 r2 s s' _ _|r1 r2 s s' _ _
                 |r s s' _ _|s He|r s s' _ _]; try discriminate.
  - exists []. split; reflexivity.
  - injection Hr as ->. destruct (IH eq_refl) as (h & -> & Hall).
    exists (c :: h). simpl. rewrite Hq. auto.
Qed.

Lemma consumes_Plus_all p s s' :
  consumes (Plus p) s s' ->
  exists h, s = h ++ s' /\ forallb p h = true /\ h <> [].
Proof.
  unfold Plus. intros H. inversion H as [| | | | | |r1 r2 s0 s1 s2 H1 H2| | | | |].
  subst. inversion H1 as [|q c s0 Hc| | | | | | | | | |]. subst.
  apply consumes_Star_all in H2. destruct H2 as (h & -> & Hall).
  exists (c :: h). simpl. rewrite Hc. repeat split; [exact Hall|discriminate].
Qed.

(** A match of [label\s*(group)]: the capture is what the group matched. *)
Lemma match_here_label_group label G s m :
  match_here (Cat (Lit label) (Cat (Star is_space) (Grp G))) s = Some m ->
  exists g rest, m = Some g /\ consumes G (g ++ rest) rest.
Proof.
  unfold match_here. cbn [exec]. intros H.
  destruct (strip_prefix label s) as [s0|]; [|discriminate].
  apply star_greedy_sound in H. destruct H as (s1 & _ & H).
  apply exec_sound in H. destruct H as (s2 & g' & HG & H).
  destruct (consumes_suffix _ _ _ HG) as [h ->].
  rewrite firstn_app_exact in H. injection H as <-.
  exists h, s2. split; [reflexivity|exact HG].
Qed.

Lemma group1_label_group label G text g :
  group1 (Cat (Lit label) (Cat (Star is_space) (Grp G))) text = Some g ->
  exists rest, consumes G (g ++ rest) rest.
Proof.
  intros H. apply group1_Some, re_search_Some in H.
  destruct H as (pre & s & _ & Hm & _).
  apply match_here_label_group in Hm. destruct Hm as (g' & rest & [= <-] & HG).
  exists rest. exact HG.
Qed.

Lemma fields_id text page_num :
  contribution_id (fields text page_num) = field id id_re text.
Proof.
  unfold fields. destruct (match group1 code_re text with
                           | Some c => _ | None => _ end) as [[cc sc] sn].
  reflexivity.
Qed.

Lemma fields_type text page_num :
  type (fields text page_num) = field strip type_re text.
Proof.
  unfold fields. destruct (match group1 code_re text with
                           | Some c => _ | None => _ end) as [[cc sc] sn].
  reflexivity.
Qed.

Lemma fields_date_time text page_num :
  date_time (fields text page_num) = field strip datetime_re text.
Proof.
  unfold fields. destruct (match group1 code_re text with
                           | Some c => _ | None => _ end) as [[cc sc] sn].
  reflexivity.
Qed.

Lemma fields_footnotes text page_num :
  footnotes (fields text page_num) = field strip footnotes_re text.
Proof.
  unfold fields. destruct (match group1 code_re text with
                           | Some c => _ | None => _ end) as [[cc sc] sn].
  reflexivity.
Qed.

(** The contribution id holds decimal digits only, whatever the page. *)
Theorem contribution_id_digits text page_num :
  forallb is_digit (contribution_id (fields text page_num)) = true.
Proof.
  rewrite fields_id. unfold field.
  destruct (group1 id_re text) as [g|] eqn:Hg; [|reflexivity].
  apply group1_label_group in Hg. destruct Hg as [rest HG].
  apply consumes_Plus_all in HG. destruct HG as (h & Heq & Hall & _).
  apply app_inv_tail in Heq. subst h. exact Hall.
Qed.

(** The contribution code is empty or upper-case letters followed by
    digits, at least one of each. *)
Theorem contribution_code_shape text page_num :
  contribution_code (fields text page_num) = [] \/
  exists letters digits,
    contribution_code (fields text page_num) = letters ++ digits /\
    letters <> [] /\ forallb is_upper_AZ letters = true /\
    digits <> [] /\ forallb is_digit digits = true.
Proof.
  rewrite fields_code. unfold field.
  destruct (group1 code_re text) as [g|] eqn:Hg; [right|left; reflexivity].
  apply group1_label_group in Hg. destruct Hg as [rest HG].
  inversion HG as [| | | | | |r1 r2 s0 s1 s2 H1 H2| | | | |]. subst.
  apply consumes_Plus_all in H1, H2.
  destruct H1 as (letters & Hl & Hup & Hne1).
  destruct H2 as (digits & -> & Hdig & Hne2).
  rewrite app_assoc in Hl. apply app_inv_tail in Hl. subst g.
  exists letters, digits. auto.
Qed.

Lemma strip_infix s : exists pre post, s = pre ++ strip s ++ post.
Proof.
  unfold strip, rstrip.
  destruct (lstrip_suffix (rev s)) as [p Hp].
  destruct (lstrip_suffix (rev (lstrip (rev s)))) as [q Hq].
  exists q, (rev p). rewrite app_assoc, <- Hq, <- rev_app_distr, <- Hp.
  symmetry. apply rev_involutive.
Qed.

Lemma in_strip c s : In c (strip s) -> In c s.
Proof.
  intros H. destruct (strip_infix s) as (pre & post & Hs). rewrite Hs.
  apply in_or_app. right. apply in_or_app. left. exact H.
Qed.

(** The type is one trimmed line: it holds no newline and no white
    space at either end. *)
Theorem type_is_one_trimmed_line text page_num :
  ~ In newline (type (fields text page_num)) /\
  strip (type (fields text page_num)) = type (fields text page_num).
Proof.
  rewrite fields_type. unfold field.
  destruct (group1 type_re text) as [g|] eqn:Hg; [|split; [intros []|reflexivity]].
  split; [|apply strip_idempotent].
  intros Hin. apply in_strip in Hin.
  apply group1_label_group in Hg. destruct Hg as [rest HG].
  apply consumes_Plus_all in HG. destruct HG as (h & Heq & Hall & _).
  apply app_inv_tail in Heq. subst h.
  revert Hin. apply forallb_not_In with (p := not_newline); [exact Hall|reflexivity].
Qed.

Lemma startswith_true m s : startswith m s = true <-> exists b, s = m ++ b.
Proof.
  unfold startswith. split.
  - destruct (strip_prefix m s) as [b|] eqn:E; [|discriminate].
    intros _. exists b. apply strip_prefix_Some, E.
  - intros [b ->]. rewrite strip_prefix_app. reflexivity.
Qed.

Lemma contains_true m s :
  contains m s = true <-> exists a b, s = a ++ m ++ b.
Proof.
  split.
  - induction s as [|c s IH]; cbn [contains]; intros H;
      apply orb_true_iff in H; destruct H as [H|H]; try discriminate.
    + apply startswith_true in H. destruct H as [b ->]. exists [], b. reflexivity.
    + apply startswith_true in H. destruct H as [b ->]. exists [], b. reflexivity.
    + destruct (IH H) as (a & b & ->). exists (c :: a), b. reflexivity.
  - intros (a & b & ->). induction a as [|c a IH].
    + assert (H : startswith m (m ++ b) = true)
        by (apply startswith_true; eauto).
      simpl app. destruct (m ++ b); cbn [contains]; rewrite H; reflexivity.
    + simpl app. cbn [contains]. rewrite IH. apply orb_true_r.
Qed.

Lemma contains_strip m s : contains m (strip s) = true -> contains m s = true.
Proof.
  rewrite !contains_true. intros (a & b & H).
  destruct (strip_infix s) as (pre & post & Hs).
  exists (pre ++ a), (b ++ post). rewrite Hs, H.
  rewrite <- !app_assoc. reflexivity.
Qed.

Lemma lazy_prefix_first stop s :
  exists rest, s = lazy_prefix stop s ++ rest /\
    forall a x, lazy_prefix stop s = a ++ x -> x <> [] ->
                stop (x ++ rest) = false.
Proof.
  induction s as [|c s IH]; cbn [lazy_prefix].
  - exists []. destruct (stop []); (split; [reflexivity|]);
      intros a x H Hx; destruct a, x; simpl in H; congruence.
  - destruct (stop (c :: s)) eqn:E.
    + exists (c :: s). split; [reflexivity|].
      intros a x H Hx. destruct a, x; simpl in H; congruence.
    + destruct IH as (rest & Hs & Hfirst). exists rest.
      split; [simpl; congruence|].
      intros a x H Hx. destruct a as [|d a]; simpl in H.
      * subst x. simpl. rewrite <- Hs. exact E.
      * injection H as -> H. eauto.
Qed.

(** The footnotes, the date and time and the type are trimmed, and the
    footnotes never reach a "Contribution" of the page. *)
Theorem footnotes_stop_before_contribution text page_num :
  contains "Contribution" (footnotes (fields text page_num)) = false /\
  strip (footnotes (fields text page_num)) = footnotes (fields text page_num) /\
  strip (date_time (fields text page_num)) = date_time (fields text page_num).
Proof.
  rewrite fields_footnotes, fields_date_time. unfold field.
  split; [|split].
  - rewrite group1_footnotes.
    destruct (after_first "Footnotes" text) as [rest|]; [|reflexivity].
    cbn [option_map].
    destruct (contains "Contribution"
                (strip (lazy_prefix footnotes_stop rest))) eqn:E; [|reflexivity].
    apply contains_strip, contains_true in E. destruct E as (a & b & E).
    destruct (lazy_prefix_first footnotes_stop rest) as (tl & _ & Hfirst).
    specialize (Hfirst a _ E ltac:(discriminate)).
    unfold footnotes_stop in Hfirst. apply orb_false_iff in Hfirst.
    destruct Hfirst as [Hfirst _].
    assert (H : startswith "Contribution"
                  ((list_ascii_of_string "Contribution" ++ b) ++ tl) = true).
    { apply startswith_true. exists (b ++ tl). apply eq_sym, app_assoc. }
    congruence.
  - destruct (group1 footnotes_re text); [apply strip_idempotent|reflexivity].
  - destruct (group1 datetime_re text); [apply strip_idempotent|reflexivity].
Qed.

(** ** The abstract and the title of a page *)

Lemma scan_lines_body lines st :
  title_found st = true -> abstract_start st = false ->
  abstract_lines st = [] ->
  (let st' := scan_lines lines st in
   if nonempty_list (abstract_lines st')
   then join " " (abstract_lines st') else [])
  = first_body_line (scanned lines).
Proof.
  intros Ht Ha Hl. cbn zeta.
  induction lines as [|line rest IH]; simpl; [rewrite Hl; reflexivity|].
  unfold scanned in *. simpl.
  destruct (is_header line); simpl; [exact IH|].
  destruct (is_date_line line); simpl; [exact IH|].
  rewrite Ht, Ha. simpl.
  destruct (is_stop_line line); [rewrite Hl; reflexivity|].
  destruct (20 <? length line) eqn:Hlen; [|exact IH].
  rewrite scan_lines_done by (simpl; auto). simpl. rewrite Hl. reflexivity.
Qed.

(** The abstract is decided by the lines after the title that are not
    header or date lines, read in order: a line starting with
    "footnotes" or "funding" (in any letter case) leaves it empty, the
    first line longer than 20 characters is the abstract, shorter lines
    are passed over. *)
Theorem abstract_first_body_line text page_num :
  abstract (fields text page_num)
  = first_body_line (after_found title_candidate (scanned (page_lines text))).
Proof.
  rewrite fields_abstract. generalize (page_lines text) as lines.
  induction lines as [|line rest IH]; [reflexivity|].
  cbn [scan_lines]. unfold scanned in *. cbn [List.filter].
  destruct (is_header line) eqn:Hh; simpl; [exact IH|].
  destruct (is_date_line line) eqn:Hd; simpl; [exact IH|].
  unfold title_candidate at 1. rewrite Hh, Hd. simpl.
  destruct ((10 <? length line) && negb (startswith "http" line)) eqn:Hc.
  - apply (scan_lines_body rest (set_title line scan_init)); reflexivity.
  - exact IH.
Qed.

(** A record has a title of more than 10 characters that is a line of
    the page, is no header or date line and does not start with
    "http". *)
Theorem record_title_is_a_page_line text page_num r :
  parse text page_num = Some r ->
  In (title r) (page_lines text) /\ 10 < length (title r) /\
  is_header (title r) = false /\ is_date_line (title r) = false /\
  startswith "http" (title r) = false.
Proof.
  intros Hr. apply parse_Some in Hr. destruct Hr as (-> & _ & Ht).
  rewrite title_first_candidate in *.
  destruct (find title_candidate (page_lines text)) as [line|] eqn:E;
    [|contradiction].
  apply find_some in E. destruct E as [Hin E]. unfold title_candidate in E.
  rewrite !andb_true_iff, !negb_true_iff, Nat.ltb_lt in E. tauto.
Qed.

Lemma record_title_is_a_page_line_witness :
  In (title (fields example_page 5)) (page_lines example_page) /\
  10 < length (title (fields example_page 5)) /\
  is_header (title (fields example_page 5)) = false /\
  is_date_line (title (fields example_page 5)) = false /\
  startswith "http" (title (fields example_page 5)) = false.
Proof.
  apply (record_title_is_a_page_line example_page 5 (fields example_page 5)).
  vm_compute. reflexivity.
Defined.

(** ** Blank pages *)

Lemma lstrip_nil s : lstrip s = [] <-> forallb is_space s = true.
Proof.
  induction s as [|c s IH]; simpl; [tauto|].
  destruct (is_space c); simpl; [exact IH|]. split; discriminate.
Qed.

Lemma forallb_rev (p : ascii -> bool) s :
  forallb p (rev s) = true <-> forallb p s = true.
Proof.
  rewrite !forallb_forall. split; intros H x Hx; apply H.
  - apply in_rev. rewrite rev_involutive. exact Hx.
  - apply in_rev. exact Hx.
Qed.

Lemma strip_nil s : strip s = [] <-> forallb is_space s = true.
Proof.
  unfold strip, rstrip. rewrite lstrip_nil, forallb_rev. split.
  - intros H. apply forallb_rev, lstrip_nil.
    destruct (lstrip (rev s)) as [|c l] eqn:E; [reflexivity|].
    pose proof (lstrip_starts_clean (rev s) c l E) as Hc.
    simpl in H. rewrite Hc in H. discriminate.
  - intros H. apply forallb_rev, lstrip_nil in H. rewrite H. reflexivity.
Qed.

Lemma split_newline_chars s line c :
  In line (split_newline s) -> In c line -> In c s.
Proof.
  revert line. induction s as [|d s IH]; simpl; intros line Hl Hc.
  - destruct Hl as [<-|[]]. exact Hc.
  - destruct (is_newline d).
    + destruct Hl as [<-|Hl]; [destruct Hc|]. right. eapply IH; eauto.
    + destruct (split_newline s) as [|l ls] eqn:E.
      * destruct Hl as [<-|[]]. destruct Hc as [->|[]]. left. reflexivity.
      * destruct Hl as [<-|Hl].
        -- destruct Hc as [->|Hc]; [left; reflexivity|].
           right. apply (IH l); [left; reflexivity|exact Hc].
        -- right. apply (IH line); [right; exact Hl|exact Hc].
Qed.

Lemma filter_none {A} (f : A -> bool) l :
  (forall x, In x l -> f x = false) -> List.filter f l = [].
Proof.
  induction l as [|x l IH]; simpl; intros H; [reflexivity|].
  rewrite (H x) by auto. apply IH. intros y Hy. apply H. auto.
Qed.

(** A page of white space only has no line and gives no record: the
    test [if text.strip()] of the page loop hides no record. *)
Theorem blank_page_no_record text page_num :
  strip text = [] ->
  page_lines text = [] /\ parse text page_num = None.
Proof.
  intros H. apply strip_nil in H. rewrite forallb_forall in H.
  assert (Hl : page_lines text = []).
  { unfold page_lines. rewrite filter_none; [reflexivity|].
    intros line Hline.
    destruct (strip line) eqn:E; [reflexivity|exfalso].
    assert (Hs : strip line = []); [|congruence].
    apply strip_nil, forallb_forall. intros c Hc.
    apply H. eapply split_newline_chars; eauto. }
  split; [exact Hl|].
  rewrite parse_eq, fields_title, Hl. simpl. rewrite andb_false_r.
  reflexivity.
Qed.

Lemma blank_page_no_record_witness :
  page_lines blank_page = [] /\ parse blank_page 2 = None.
Proof. apply (blank_page_no_record blank_page 2). vm_compute. reflexivity. Defined.

(** ** Page numbers of a run *)

Lemma page_records_parse page_num pg r :
  In r (page_records parse_body page_num pg) ->
  exists text, pg = Returns text /\ parse text (page_num + 1) = Some r.
Proof.
  unfold page_records. destruct pg as [text|e]; [|intros []].
  destruct (nonempty (strip text)); [|intros []].
  change (snd (parse_page parse_body text (page_num + 1) new_extractor))
    with (parse text (page_num + 1)).
  destruct (parse text (page_num + 1)) as [c|] eqn:E; [|intros []].
  intros [<-|[]]. exists text. auto.
Qed.

Lemma parse_page_number text page_num r :
  parse text page_num = Some r -> page_number r = page_num.
Proof.
  intros H. apply parse_Some in H. destruct H as (-> & _ & _).
  unfold fields. destruct (match group1 code_re text with
                           | Some c => _ | None => _ end) as [[cc sc] sn].
  reflexivity.
Qed.

Lemma records_from_origin pages : forall first r,
  In r (records_from parse_body first pages) ->
  first < page_number r /\
  exists text,
    pages !! (page_number r - (first + 1)) = Some (Returns text) /\
    parse text (page_number r) = Some r.
Proof.
  induction pages as [|pg pages IH]; intros first r Hin; simpl in Hin;
    [destruct Hin|].
  apply in_app_or in Hin. destruct Hin as [Hin|Hin].
  - apply page_records_parse in Hin. destruct Hin as (text & -> & Hp).
    pose proof (parse_page_number _ _ _ Hp) as Hn. rewrite Hn.
    split; [lia|]. exists text.
    replace (first + 1 - (first + 1)) with 0 by lia. auto.
  - apply IH in Hin. destruct Hin as (Hlt & text & Hl & Hp).
    split; [lia|]. exists text. split; [|exact Hp].
    replace (page_number r - (first + 1))
      with (S (page_number r - (S first + 1))) by lia.
    exact Hl.
Qed.

Lemma records_from_sorted pages : forall first,
  StronglySorted lt (map page_number (records_from parse_body first pages)).
Proof.
  induction pages as [|pg pages IH]; intros first; simpl; [constructor|].
  assert (Hrest : Forall (lt (first + 1))
                    (map page_number (records_from parse_body (S first) pages))).
  { apply List.Forall_forall. intros n Hn. apply in_map_iff in Hn.
    destruct Hn as (r & <- & Hr). apply records_from_origin in Hr. lia. }
  unfold page_records. destruct pg as [text|e]; [|apply IH].
  destruct (nonempty (strip text)); [|apply IH].
  change (snd (parse_page parse_body text (first + 1) new_extractor))
    with (parse text (first + 1)).
  destruct (parse text (first + 1)) as [c|] eqn:E; [|apply IH].
  simpl. rewrite (parse_page_number _ _ _ E).
  constructor; [apply IH|exact Hrest].
Qed.

(** The records a fresh extractor returns for a readable file come in
    strictly increasing page number, and each is the record of the page
    of that number, counted from 1; the first page gives none. *)
Theorem extracted_records_by_page pages :
  let records := snd (extract_contributions (Returns pages) new_extractor) in
  StronglySorted lt (map page_number records) /\
  forall r, In r records ->
    2 <= page_number r <= length pages /\
    exists text,
      pages !! (page_number r - 1) = Some (Returns text) /\
      parse text (page_number r) = Some r.
Proof.
  cbn zeta. rewrite extract_contributions_records. cbn [contributions app new_extractor].
  split; [apply records_from_sorted|].
  intros r Hr. apply records_from_origin in Hr.
  destruct Hr as (Hlt & text & Hl & Hp).
  rewrite lookup_drop in Hl.
  replace (1 + (page_number r - (1 + 1))) with (page_number r - 1) in Hl by lia.
  split; [|eauto]. split; [lia|].
  apply lookup_lt_Some in Hl. lia.
Qed.

(** The extractor keeps its list: a second extraction of the same file
    on the same object returns every record twice. *)
Theorem second_extraction_appends pages self :
  let first := extract_contributions (Returns pages) self in
  snd first = contributions self ++ records_from parse_body 1 (drop 1 pages) /\
  snd (extract_contributions (Returns pages) (fst first))
  = snd first ++ records_from parse_body 1 (drop 1 pages).
Proof.
  cbn zeta. rewrite !extract_contributions_records.
  split; [reflexivity|]. f_equal.
  unfold extract_contributions, extract_with. cbn [fst logged contributions].
  rewrite page_loop_contributions. reflexivity.
Qed.

(** ** Session names *)

Lemma session_items_names_distinct : NoDup (map snd session_items).
Proof. apply (bool_decide_unpack _). vm_compute. exact I. Qed.

Lemma session_items_not_fallback code name :
  session_map !! code = Some name -> startswith "Session " name = false.
Proof.
  intros H. apply elem_of_list_to_map_2, list_elem_of_In in H.
  assert (Hall : forallb (fun kv : str * str =>
                            negb (startswith "Session " (snd kv)))
                         session_items = true) by (vm_compute; reflexivity).
  rewrite forallb_forall in Hall. apply Hall in H.
  apply negb_true_iff in H. exact H.
Qed.

Lemma session_items_letters code name :
  session_map !! code = Some name -> forallb is_upper_AZ code = true.
Proof.
  intros H. apply elem_of_list_to_map_2, list_elem_of_In in H.
  assert (Hall : forallb (fun kv : str * str => forallb is_upper_AZ (fst kv))
                         session_items = true) by (vm_compute; reflexivity).
  rewrite forallb_forall in Hall. apply (Hall _ H).
Qed.

Lemma distinct_snd_same_fst {A B} (l : list (A * B)) a b n :
  NoDup (map snd l) -> In (a, n) l -> In (b, n) l -> a = b.
Proof.
  induction l as [|[k v] l IH]; simpl; intros Hnd Ha Hb; [destruct Ha|].
  apply NoDup_cons in Hnd. destruct Hnd as [Hnot Hnd].
  assert (Hin : forall x, In (x, v) l -> v ∈ map snd l).
  { intros x Hx. apply list_elem_of_In, in_map_iff. exists (x, v). auto. }
  destruct Ha as [Ha|Ha], Hb as [Hb|Hb].
  - congruence.
  - injection Ha as -> ->. exfalso. apply Hnot. eauto.
  - injection Hb as -> ->. exfalso. apply Hnot. eauto.
  - auto.
Qed.

(** The classifier gives different names to different codes, in the
    table or not: a session name determines its code. *)
Theorem get_session_name_injective a b :
  get_session_name a = get_session_name b -> a = b.
Proof.
  unfold get_session_name.
  destruct (session_map !! a) as [na|] eqn:Ea;
    destruct (session_map !! b) as [nb|] eqn:Eb; simpl; intros H.
  - subst nb. apply elem_of_list_to_map_2, list_elem_of_In in Ea, Eb.
    eapply distinct_snd_same_fst;
      [exact session_items_names_distinct|exact Ea|exact Eb].
  - apply session_items_not_fallback in Ea. subst na.
    rewrite (proj2 (startswith_true "Session " _)) in Ea by eauto.
    discriminate.
  - apply session_items_not_fallback in Eb. subst nb.
    rewrite (proj2 (startswith_true "Session " _)) in Eb by eauto.
    discriminate.
  - congruence.
Qed.

Lemma get_session_name_injective_witness :
  list_ascii_of_string "MOA" = list_ascii_of_string "MOA".
Proof. apply (get_session_name_injective "MOA" "MOA"). reflexivity. Defined.

Lemma record_session_of text page_num r :
  parse text page_num = Some r -> session r = session_of (session_code r).
Proof.
  intros Hr. apply parse_Some in Hr. destruct Hr as (-> & _ & _).
  rewrite fields_session_code, fields_session. cbn zeta. unfold session_of.
  destruct (3 <=? length (contribution_code (fields text page_num))) eqn:E;
    [|reflexivity].
  apply Nat.leb_le in E.
  destruct (contribution_code (fields text page_num)) as [|c1 l];
    [simpl in E; lia|reflexivity].
Qed.

(** The session of a record is decided by its session code: empty for
    the empty code, the classifier's name otherwise; a session code
    that takes in a digit of the contribution code is not in the table
    and the session is "Session " followed by it. *)
Theorem record_session_by_code text page_num r :
  parse text page_num = Some r ->
  session r = session_of (session_code r) /\
  (existsb is_digit (session_code r) = true ->
   session r = "Session " ++ session_code r).
Proof.
  intros Hr. pose proof (record_session_of _ _ _ Hr) as Hs.
  split; [exact Hs|]. intros Hd. rewrite Hs. unfold session_of.
  destruct (session_code r) as [|c l] eqn:E; [discriminate|].
  cbn [nonempty]. unfold get_session_name.
  destruct (session_map !! (c :: l)) as [name|] eqn:El; [|reflexivity].
  exfalso. apply session_items_letters in El.
  apply existsb_exists in Hd. destruct Hd as (d & Hin & Hdig).
  rewrite forallb_forall in El. apply El in Hin.
  unfold is_digit, is_upper_AZ, in_range in *.
  apply andb_true_iff in Hin, Hdig. destruct Hin as [Hin _], Hdig as [_ Hdig].
  apply N.leb_le in Hin, Hdig. lia.
Qed.

Lemma record_session_by_code_witness :
  session (fields two_letter_page 1) = "Session AB1".
Proof.
  apply (proj2 (record_session_by_code two_letter_page 1
                  (fields two_letter_page 1) ltac:(vm_compute; reflexivity))).
  vm_compute. reflexivity.
Defined.

(** ** Sessions of the saved data *)

Lemma group_sessions_snoc cs c :
  group_sessions (cs ++ [c]) = add_paper (group_sessions cs) c.
Proof. unfold group_sessions. rewrite fold_left_app. reflexivity. Qed.

Lemma has_key_In k sessions :
  has_key k sessions = true <-> In k (map fst sessions).
Proof.
  unfold has_key. rewrite existsb_exists, in_map_iff. split.
  - intros (kd & Hin & Hk). apply bool_decide_eq_true_1 in Hk. eauto.
  - intros (kd & Hk & Hin). exists kd. split; [exact Hin|].
    apply bool_decide_eq_true_2, Hk.
Qed.

Lemma get_session_None k sessions :
  get_session k sessions = None <-> has_key k sessions = false.
Proof.
  induction sessions as [|[k' d] rest IH]; simpl; [tauto|].
  destruct (bool_decide (k' = k)); simpl; [split; discriminate|exact IH].
Qed.

Lemma append_paper_keys k c sessions :
  map fst (append_paper k c sessions) = map fst sessions.
Proof.
  induction sessions as [|[k' d] rest IH]; simpl; [reflexivity|].
  destruct (bool_decide (k' = k)); simpl; [reflexivity|]. rewrite IH. reflexivity.
Qed.

Lemma get_append_paper_same k c sessions :
  get_session k (append_paper k c sessions)
  = option_map (fun d => {| session_info := session_info d;
                            papers := papers d ++ [c] |})
               (get_session k sessions).
Proof.
  induction sessions as [|[k' d] rest IH]; simpl; [reflexivity|].
  destruct (bool_decide (k' = k)) eqn:E; simpl; rewrite E; [reflexivity|exact IH].
Qed.

Lemma get_append_paper_other k k' c sessions :
  k <> k' ->
  get_session k' (append_paper k c sessions) = get_session k' sessions.
Proof.
  intros Hne. induction sessions as [|[k0 d] rest IH]; simpl; [reflexivity|].
  destruct (bool_decide (k0 = k)) eqn:E; simpl.
  - apply bool_decide_eq_true_1 in E. subst k0.
    rewrite bool_decide_eq_false_2 by exact Hne. reflexivity.
  - destruct (bool_decide (k0 = k')); [reflexivity|exact IH].
Qed.

Lemma get_session_snoc k' k d sessions :
  get_session k' (sessions ++ [(k, d)])
  = match get_session k' sessions with
    | Some x => Some x
    | None => if bool_decide (k = k') then Some d else None
    end.
Proof.
  induction sessions as [|[k0 d0] rest IH]; simpl; [reflexivity|].
  destruct (bool_decide (k0 = k')); [reflexivity|exact IH].
Qed.

Lemma filter_snoc {A} (f : A -> bool) l x :
  List.filter f (l ++ [x]) = List.filter f l ++ (if f x then [x] else []).
Proof. rewrite List.filter_app. reflexivity. Qed.

(** The entry of a session code in the dictionary of [save_data]: its
    papers are the contributions with that code, in their order, and
    its name is the session of the first of them. *)
Lemma get_session_group cs : forall k,
  get_session k (group_sessions cs)
  = match List.filter (fun c => bool_decide (session_code c = k)) cs with
    | [] => None
    | c0 :: rest =>
        Some {| session_info :=
                  {| info_id := k; info_name := session c0; info_prefix := k |};
                papers := c0 :: rest |}
    end.
Proof.
  induction cs as [|c cs IH] using rev_ind; intros k; [reflexivity|].
  rewrite group_sessions_snoc, filter_snoc. unfold add_paper. cbn zeta.
  destruct (bool_decide (session_code c = k)) eqn:E.
  - apply bool_decide_eq_true_1 in E. subst k.
    rewrite get_append_paper_same.
    destruct (has_key (session_code c) (group_sessions cs)) eqn:Hk.
    + specialize (IH (session_code c)).
      destruct (get_session (session_code c) (group_sessions cs)) as [d|] eqn:Hg;
        [|apply get_session_None in Hg; congruence].
      destruct (List.filter _ cs) as [|c0 rest]; [discriminate|].
      injection IH as ->. reflexivity.
    + apply get_session_None in Hk. rewrite get_session_snoc, Hk.
      rewrite bool_decide_eq_true_2 by reflexivity.
      rewrite IH in Hk.
      destruct (List.filter _ cs) as [|c0 rest]; [reflexivity|discriminate].
  - apply bool_decide_eq_false_1 in E.
    rewrite get_append_paper_other by exact E. rewrite app_nil_r.
    destruct (has_key (session_code c) (group_sessions cs)); [apply IH|].
    rewrite get_session_snoc, IH.
    destruct (List.filter _ cs); [|reflexivity].
    rewrite bool_decide_eq_false_2 by exact E. reflexivity.
Qed.

Lemma group_sessions_keys cs :
  map fst (group_sessions cs) = first_occurrences (map session_code cs).
Proof.
  unfold first_occurrences.
  induction cs as [|c cs IH] using rev_ind; [reflexivity|].
  rewrite group_sessions_snoc, map_app, rev_app_distr. simpl.
  unfold add_paper. cbn zeta. rewrite append_paper_keys.
  destruct (has_key (session_code c) (group_sessions cs)) eqn:Hk.
  - apply has_key_In in Hk. rewrite IH in Hk. apply in_rev in Hk.
    apply list_elem_of_In in Hk. rewrite elem_of_remove_dups in Hk.
    destruct (decide_rel elem_of (session_code c) (rev (map session_code cs)))
      as [_|Hn]; [exact IH|exfalso; apply Hn; exact Hk].
  - assert (Hn : ~ In (session_code c) (rev (remove_dups (rev (map session_code cs))))).
    { rewrite <- IH. intros Hin. apply has_key_In in Hin. congruence. }
    rewrite map_app, IH. simpl.
    destruct (decide_rel elem_of (session_code c) (rev (map session_code cs)))
      as [Hin|_]; [|reflexivity].
    exfalso. apply Hn, in_rev. rewrite rev_involutive.
    apply list_elem_of_In. rewrite elem_of_remove_dups. exact Hin.
Qed.

Lemma get_session_In k d sessions :
  NoDup (map fst sessions) -> In (k, d) sessions ->
  get_session k sessions = Some d.
Proof.
  induction sessions as [|[k0 d0] rest IH]; simpl; intros Hnd Hin;
    [destruct Hin|].
  apply NoDup_cons in Hnd. destruct Hnd as [Hnot Hnd].
  destruct Hin as [[= -> ->]|Hin].
  - rewrite bool_decide_eq_true_2 by reflexivity. reflexivity.
  - rewrite bool_decide_eq_false_2; [auto|].
    intros ->. apply Hnot, list_elem_of_In, in_map_iff. exists (k, d). auto.
Qed.

Lemma first_occurrences_NoDup codes : NoDup (first_occurrences codes).
Proof.
  unfold first_occurrences. apply NoDup_ListNoDup, NoDup_rev, NoDup_ListNoDup.
  apply NoDup_remove_dups.
Qed.

(** [save_data] files every contribution under its session code: the
    sessions come in the order in which their codes first occur, one
    entry per code, and the papers of an entry are the contributions
    with its code, in their order; the entry is named after the session
    of its first paper. *)
Theorem sessions_group_by_code cs :
  map fst (group_sessions cs) = first_occurrences (map session_code cs) /\
  NoDup (map fst (group_sessions cs)) /\
  forall k d, In (k, d) (group_sessions cs) ->
    info_id (session_info d) = k /\ info_prefix (session_info d) = k /\
    papers d = List.filter (fun c => bool_decide (session_code c = k)) cs /\
    exists c0 rest,
      papers d = c0 :: rest /\ info_name (session_info d) = session c0.
Proof.
  assert (Hnd : NoDup (map fst (group_sessions cs))).
  { rewrite group_sessions_keys. apply first_occurrences_NoDup. }
  split; [apply group_sessions_keys|]. split; [exact Hnd|].
  intros k d Hin. apply (get_session_In _ _ _ Hnd) in Hin.
  rewrite get_session_group in Hin.
  destruct (List.filter _ cs) as [|c0 rest]; [discriminate|].
  injection Hin as <-. simpl. eauto 8.
Qed.

Lemma total_papers_app s1 s2 :
  total_papers (s1 ++ s2) = total_papers s1 + total_papers s2.
Proof. unfold total_papers. rewrite map_app, list_sum_app. reflexivity. Qed.

Lemma total_papers_cons k d sessions :
  total_papers ((k, d) :: sessions) = length (papers d) + total_papers sessions.
Proof. reflexivity. Qed.

Lemma total_papers_append k c sessions :
  total_papers (append_paper k c sessions)
  = total_papers sessions + (if has_key k sessions then 1 else 0).
Proof.
  induction sessions as [|[k' d] rest IH]; [reflexivity|].
  cbn [append_paper]. unfold has_key. cbn [existsb fst]. fold (has_key k rest).
  destruct (bool_decide (k' = k)); cbn [orb]; rewrite !total_papers_cons.
  - cbn [papers]. rewrite length_app. simpl. lia.
  - rewrite IH. lia.
Qed.

Lemma total_papers_group cs : total_papers (group_sessions cs) = length cs.
Proof.
  induction cs as [|c cs IH] using rev_ind; [reflexivity|].
  rewrite group_sessions_snoc, length_app. unfold add_paper. cbn zeta.
  destruct (has_key (session_code c) (group_sessions cs)) eqn:Hk.
  - rewrite total_papers_append, Hk, IH. reflexivity.
  - rewrite total_papers_append, total_papers_app, IH.
    assert (Hk' : has_key (session_code c)
                    (group_sessions cs ++ [(session_code c, new_entry c)]) = true).
    { apply has_key_In. rewrite map_app. apply in_or_app. right. left. reflexivity. }
    rewrite Hk'. unfold total_papers. simpl. lia.
Qed.

(** [save_data] writes nothing for an empty list. Otherwise the totals
    of the index and of the report are the number of contributions, the
    CSV has them all, the counts of the session breakdown add up to that
    number, and the number of sessions is that of the distinct session
    codes. *)
Theorem save_data_counts json_time report_time cs :
  (save_data json_time report_time cs = None <-> cs = []) /\
  forall files, save_data json_time report_time cs = Some files ->
    csv_rows files = cs /\
    total_contributions (index_scrape_info (index_json files)) = length cs /\
    report_total (summary files) = length cs /\
    list_sum (map line_count (breakdown (summary files))) = length cs /\
    list_sum (map (fun d => length (papers d)) (index_sessions (index_json files)))
    = length cs /\
    sessions_processed (index_scrape_info (index_json files))
    = length (first_occurrences (map session_code cs)) /\
    report_sessions (summary files)
    = length (first_occurrences (map session_code cs)).
Proof.
  unfold save_data. split.
  - destruct cs; simpl; split; congruence.
  - intros files H. destruct (nonempty_list cs); [|discriminate].
    injection H as <-. cbn [csv_rows index_json summary index_scrape_info
      total_contributions report_total breakdown index_sessions
      sessions_processed report_sessions].
    pose proof (total_papers_group cs) as Ht. unfold total_papers in Ht.
    rewrite !map_map, !length_map in *. cbn [line_count].
    rewrite <- (length_map fst), group_sessions_keys. auto 8.
Qed.

Lemma save_data_counts_witness :
  exists files,
    save_data "now" "later" (records_from parse_body 0 session_run) = Some files /\
    csv_rows files = records_from parse_body 0 session_run.
Proof.
  destruct (save_data "now" "later" (records_from parse_body 0 session_run))
    as [files|] eqn:E.
  - exists files. split; [reflexivity|].
    exact (proj1 (proj2 (save_data_counts "now" "later"
                           (records_from parse_body 0 session_run)) files E)).
  - exfalso. vm_compute in E. discriminate.
Defined.

(** In the sessions of the records of a run every paper carries the
    name of its session entry, and that name is the classifier's name
    of the session code (empty for the empty code). *)
Theorem session_entries_named_by_classifier pages k d :
  In (k, d) (group_sessions
               (snd (extract_contributions (Returns pages) new_extractor))) ->
  info_name (session_info d) = session_of k /\
  forall c, In c (papers d) ->
    session_code c = k /\ session c = info_name (session_info d).
Proof.
  rewrite extract_contributions_records. cbn [contributions app new_extractor].
  set (records := records_from parse_body 1 (drop 1 pages)).
  assert (Hrec : forall c, In c records -> session c = session_of (session_code c)).
  { intros c Hc. apply records_from_origin in Hc.
    destruct Hc as (_ & text & _ & Hp). eapply record_session_of, Hp. }
  assert (Hnd : NoDup (map fst (group_sessions records))).
  { rewrite group_sessions_keys. apply first_occurrences_NoDup. }
  intros Hin. apply (get_session_In _ _ _ Hnd) in Hin.
  rewrite get_session_group in Hin.
  destruct (List.filter _ records) as [|c0 rest] eqn:Hf; [discriminate|].
  injection Hin as <-. cbn [session_info info_name papers].
  assert (Hall : forall c, In c (c0 :: rest) -> In c records /\ session_code c = k).
  { intros c Hc. rewrite <- Hf in Hc. apply filter_In in Hc.
    destruct Hc as [Hc Hk]. apply bool_decide_eq_true_1 in Hk. auto. }
  assert (H0 : session c0 = session_of k).
  { destruct (Hall c0 (or_introl eq_refl)) as [Hc <-]. auto. }
  split; [exact H0|]. intros c Hc. destruct (Hall c Hc) as [Hr Hk].
  split; [exact Hk|]. rewrite H0, <- Hk. auto.
Qed.

Lemma session_entries_named_by_classifier_witness :
  match group_sessions
          (snd (extract_contributions (Returns session_run) new_extractor)) with
  | (k, d) :: _ => info_name (session_info d) = session_of k
  | [] => False
  end.
Proof.
  destruct (group_sessions
              (snd (extract_contributions (Returns session_run) new_extractor)))
    as [|[k d] rest] eqn:E; [vm_compute in E; discriminate|].
  apply (session_entries_named_by_classifier session_run k d).
  rewrite E. left. reflexivity.
Defined.

Lemma sessions_group_by_code_witness :
  map fst (group_sessions (records_from parse_body 0 session_run))
  = [list_ascii_of_string "TUB"; list_ascii_of_string "MOA"].
Proof.
  rewrite (proj1 (sessions_group_by_code (records_from parse_body 0 session_run))).
  vm_compute. reflexivity.
Defined.

(** ** The whole run *)

Lemma extract_contributions_any_log pdf self lg :
  snd (extract_contributions pdf {| contributions := contributions self; log := lg |})
  = snd (extract_contributions pdf self) /\
  contributions
    (fst (extract_contributions pdf
            {| contributions := contributions self; log := lg |}))
  = contributions (fst (extract_contributions pdf self)).
Proof.
  unfold extract_contributions, extract_with. destruct pdf as [pages|e].
  - cbn [fst snd logged contributions].
    rewrite !page_loop_contributions. split; reflexivity.
  - split; reflexivity.
Qed.

(** [run] writes the data files and the HTML explorer when the
    extraction returns at least one record, and nothing at all
    otherwise; the CSV then holds the list of the extractor, and
    [save_data] never meets an empty list. When the PDF cannot be
    opened nothing is written and the list of the extractor is as it
    was. *)
Theorem run_writes_when_records json_time report_time pdf self :
  let result := run json_time report_time pdf self in
  let self' := fst (fst result) in
  let out := snd (fst result) in
  let returned := snd (extract_contributions pdf self) in
  (data_files out = None <-> returned = []) /\
  html_explorer out = nonempty_list returned /\
  ~ In WarningNothingToSave (snd result) /\
  (forall files, data_files out = Some files ->
     csv_rows files = contributions self' /\ returned = contributions self') /\
  (forall e, pdf = Raises e ->
     out = no_outputs /\ contributions self' = contributions self /\
     snd result = [InfoStarting; Extraction InfoOpening;
                   Extraction (ErrorOpening e); ErrorNoContributions]).
Proof.
  cbn zeta. destruct pdf as [pages|e].
  - assert (Hno : forall evs tail,
              ~ In WarningNothingToSave tail ->
              ~ In WarningNothingToSave (InfoStarting :: map Extraction evs ++ tail)).
    { intros evs tail Ht [H|H]; [discriminate|].
      apply in_app_or in H. destruct H as [H|H]; [|auto].
      apply in_map_iff in H. destruct H as (ev & H & _). discriminate. }
    destruct (extract_contributions_any_log (Returns pages) self []) as [Hr Hc].
    unfold run.
    destruct (extract_contributions (Returns pages)
                {| contributions := contributions self; log := [] |})
      as [self1 returned] eqn:E.
    cbn [fst snd] in Hr, Hc.
    assert (Hs : contributions self1 = returned).
    { revert E. unfold extract_contributions, extract_with.
      intros [= <- <-]. reflexivity. }
    rewrite <- Hr. unfold save_data. rewrite Hs.
    destruct returned as [|r rs]; cbn [nonempty_list fst snd data_files
      html_explorer no_outputs contributions csv_rows].
    + split; [split; reflexivity|]. split; [reflexivity|].
      split; [apply (Hno _ [ErrorNoContributions]); intros [H|[]]; discriminate|].
      split; [intros files H; discriminate|intros e H; discriminate].
    + split; [split; discriminate|]. split; [reflexivity|].
      split.
      { apply (Hno _ [InfoDataSaved; InfoHtmlCreated;
                      InfoCompleted (length (r :: rs))]).
        intros [H|[H|[H|[]]]]; discriminate. }
      split; [intros files [= <-]; split; reflexivity|intros e H; discriminate].
  - unfold run, extract_contributions, extract_with.
    cbn [fst snd logged log contributions nonempty_list data_files
         html_explorer no_outputs map app].
    split; [split; reflexivity|]. split; [reflexivity|].
    split; [intros [H|[H|[H|[H|[]]]]]; discriminate|].
    split; [intros files H; discriminate|].
    intros e0 [= <-]. repeat split.
Qed.

Lemma run_writes_when_records_witness :
  snd (fst (run "now" "later" (Raises "no such file") new_extractor))
  = no_outputs.
Proof.
  exact (proj1 (proj2 (proj2 (proj2 (proj2
           (run_writes_when_records "now" "later" (Raises "no such file")
              new_extractor)))) "no such file" eq_refl)).
Defined.

(** ** Lines *)

Lemma split_newline_no_newline s line :
  In line (split_newline s) -> ~ In newline line.
Proof.
  revert line. induction s as [|d s IH]; simpl; intros line Hl Hc.
  - destruct Hl as [<-|[]]. destruct Hc.
  - destruct (is_newline d) eqn:Ed.
    + destruct Hl as [<-|Hl]; [destruct Hc|]. eapply IH; eauto.
    + destruct (split_newline s) as [|l ls] eqn:E.
      * destruct Hl as [<-|[]]. destruct Hc as [->|[]].
        vm_compute in Ed. discriminate.
      * destruct Hl as [<-|Hl].
        -- destruct Hc as [->|Hc].
           ++ vm_compute in Ed. discriminate.
           ++ apply (IH l); [left; reflexivity|exact Hc].
        -- apply (IH line); [right; exact Hl|exact Hc].
Qed.

Lemma page_lines_no_newline text line :
  In line (page_lines text) -> ~ In newline line.
Proof.
  unfold page_lines. rewrite in_map_iff. intros (x & <- & Hx) Hin.
  apply filter_In in Hx. destruct Hx as [Hx _].
  apply in_strip in Hin. eapply split_newline_no_newline; eauto.
Qed.

(** The title and the abstract are single lines: neither holds a
    newline, whatever the page. *)
Theorem title_and_abstract_single_line text page_num :
  ~ In newline (title (fields text page_num)) /\
  ~ In newline (abstract (fields text page_num)).
Proof.
  split.
  - rewrite title_first_candidate.
    destruct (find title_candidate (page_lines text)) as [line|] eqn:E;
      [|intros []].
    apply find_some in E. destruct E as [Hin _].
    eapply page_lines_no_newline, Hin.
  - rewrite fields_abstract. cbn zeta.
    destruct (scan_lines_abstract (page_lines text)) as [H|(line & H & Hfind)];
      rewrite H; simpl; [intros []|].
    apply find_some in Hfind. destruct Hfind as [Hin _].
    apply in_after_found in Hin. unfold scanned in Hin.
    apply filter_In in Hin. destruct Hin as [Hin _].
    eapply page_lines_no_newline, Hin.
Qed.
